(** * NetStalker: the wardriving map and statistics front ends

    A shallow embedding of [app.js] (the map page) and [stats.js] (the
    statistics page), together with a model of the data pipeline that
    produces the document they read.  The pipeline itself
    ([build_data.py]) is not part of the sources at hand; module
    [Pipeline] models it from the specification's words and says so at
    each definition. *)

From Stdlib Require Import ZArith Ascii Lia.
From stdpp Require Import base option list gmap strings pretty sorting.

(** ** JavaScript values and the runtime operations the pages use *)

Module Js.

Local Open Scope Z_scope.

(** The primitive values found in the properties of a parsed GeoJSON
    feature.  Numbers are the integer-valued ones (signal strength,
    channel, counters): [JNum n] is the double whose value is the
    integer [n].  [JUndefined] is what reading an absent property
    yields. *)
Inductive JsVal : Type :=
| JUndefined
| JNull
| JBool (b : bool)
| JNum (n : Z)
| JStr (s : string).

#[global] Instance JsVal_eq_dec : EqDecision JsVal.
Proof. solve_decision. Defined.

(** The result of a numeric conversion: an integer or NaN. *)
Inductive JsNum : Type :=
| NaN
| Num (n : Z).

#[global] Instance JsNum_eq_dec : EqDecision JsNum.
Proof. solve_decision. Defined.

(** An object used as a record of properties: own string-keyed
    properties only. *)
Abbreviation JsObj := (gmap string JsVal).

(** [o.k]: reading a property; an absent one reads as [undefined]. *)
Definition get (o : JsObj) (k : string) : JsVal := default JUndefined (o !! k).

(** ToBoolean. *)
Definition truthy (v : JsVal) : bool :=
  match v with
  | JUndefined | JNull => false
  | JBool b => b
  | JNum n => negb (n =? 0)
  | JStr s => negb (String.eqb s "")
  end.

(** [a || b] and [a && b] return one of their operands. *)
Definition js_or (a b : JsVal) : JsVal := if truthy a then a else b.
Definition js_and (a b : JsVal) : JsVal := if truthy a then b else a.

(** [a === b] on these primitive values; [a !== b] is its negation. *)
Definition strict_eq (a b : JsVal) : bool := bool_decide (a = b).

(** ToString, as template literals and [parseInt] apply it. *)
Definition ToString (v : JsVal) : string :=
  match v with
  | JUndefined => "undefined"
  | JNull => "null"
  | JBool true => "true"
  | JBool false => "false"
  | JNum n => pretty n
  | JStr s => s
  end.

(** *** Strings

    Strings are byte strings; the case mappings below are the ASCII
    part of [toUpperCase] and [toLowerCase]. *)

Definition upper_ascii (c : ascii) : ascii :=
  let n := N_of_ascii c in
  if ((97 <=? n) && (n <=? 122))%N then ascii_of_N (n - 32) else c.

Definition lower_ascii (c : ascii) : ascii :=
  let n := N_of_ascii c in
  if ((65 <=? n) && (n <=? 90))%N then ascii_of_N (n + 32) else c.

Fixpoint map_string (f : ascii → ascii) (s : string) : string :=
  match s with
  | EmptyString => EmptyString
  | String c s' => String (f c) (map_string f s')
  end.

Definition upper : string → string := map_string upper_ascii.
Definition lower : string → string := map_string lower_ascii.

(** [s.includes(sub)]: [sub] occurs in [s] at some position. *)
Fixpoint includes (s sub : string) : bool :=
  if String.prefix sub s then true
  else match s with
       | EmptyString => false
       | String _ s' => includes s' sub
       end.

(** [s.split(',')] for a one-character separator: the pieces between
    separators, empty pieces kept; the empty string gives one empty
    piece. *)
Fixpoint split_go (sep : ascii) (cur : string) (s : string) : list string :=
  match s with
  | EmptyString => [String.rev cur]
  | String c s' =>
      if Ascii.eqb c sep then String.rev cur :: split_go sep EmptyString s'
      else split_go sep (String c cur) s'
  end.

Definition split (sep : ascii) (s : string) : list string :=
  split_go sep EmptyString s.

(** Method calls on a value that is not a string raise a TypeError:
    [None] stands for the exception. *)
Definition as_string (v : JsVal) : option string :=
  match v with JStr s => Some s | _ => None end.

Definition toUpperCase (v : JsVal) : option string := upper <$> as_string v.
Definition toLowerCase (v : JsVal) : option string := lower <$> as_string v.

(** *** parseInt

    [parseInt(v)] with no radix: ToString, skip leading white space
    (that of the ASCII range), an optional sign, an optional [0x] prefix
    selecting radix 16, then the longest run of digits; NaN when that
    run is empty.  The result is the exact integer. *)

Definition is_space (c : ascii) : bool :=
  let n := N_of_ascii c in
  ((n =? 9) || (n =? 10) || (n =? 11) || (n =? 12) || (n =? 13) || (n =? 32))%N.

Fixpoint skip_space (s : string) : string :=
  match s with
  | String c s' => if is_space c then skip_space s' else s
  | EmptyString => s
  end.

Definition digit_value (radix : Z) (c : ascii) : option Z :=
  let n := Z.of_N (N_of_ascii c) in
  let d := if (48 <=? n) && (n <=? 57) then Some (n - 48)
           else if (97 <=? n) && (n <=? 122) then Some (n - 87)
           else if (65 <=? n) && (n <=? 90) then Some (n - 55)
           else None in
  match d with
  | Some v => if v <? radix then Some v else None
  | None => None
  end.

(** The digits of [s] read from the left until the first character
    that is no digit of the radix. *)
Fixpoint digits_go (radix : Z) (acc : option Z) (s : string) : option Z :=
  match s with
  | EmptyString => acc
  | String c s' =>
      match digit_value radix c with
      | Some d => digits_go radix (Some (default 0 acc * radix + d)) s'
      | None => acc
      end
  end.

Definition strip_sign (s : string) : Z * string :=
  match s with
  | String "-" s' => (-1, s')
  | String "+" s' => (1, s')
  | _ => (1, s)
  end.

Definition strip_hex_prefix (s : string) : Z * string :=
  match s with
  | String "0" (String "x" s') => (16, s')
  | String "0" (String "X" s') => (16, s')
  | _ => (10, s)
  end.

Definition parseInt_string (s : string) : JsNum :=
  let '(sign, s1) := strip_sign (skip_space s) in
  let '(radix, s2) := strip_hex_prefix s1 in
  match digits_go radix None s2 with
  | Some m => Num (sign * m)
  | None => NaN
  end.

Definition parseInt (v : JsVal) : JsNum := parseInt_string (ToString v).

(** *** Comparison of numbers

    A relational operator on a NaN operand is false. *)
Definition num_lt (a b : JsNum) : bool :=
  match a, b with
  | Num x, Num y => x <? y
  | _, _ => false
  end.

Definition num_ge (a b : JsNum) : bool :=
  match a, b with
  | Num x, Num y => y <=? x
  | _, _ => false
  end.

Definition num_le (a b : JsNum) : bool := num_ge b a.

(** ToNumber.  The conversion of a string follows the grammar of
    numeric literals of the language; it is left abstract here: every
    result below holds whatever number or NaN a string converts to. *)
Section Conversion.
Variable StringToNumber : string → JsNum.

Definition ToNumber (v : JsVal) : JsNum :=
  match v with
  | JUndefined => NaN
  | JNull => Num 0
  | JBool b => Num (if b then 1 else 0)
  | JNum n => Num n
  | JStr s => StringToNumber s
  end.

(** [v < n] and [v >= n] for a value on the left and a number on the
    right: the value is converted with ToNumber. *)
Definition lt_number (v : JsVal) (n : JsNum) : bool := num_lt (ToNumber v) n.
Definition ge_number (v : JsVal) (n : JsNum) : bool := num_ge (ToNumber v) n.

End Conversion.

(** Decimal text: the characters and strings [pretty] produces for a
    number. *)
Definition decimalDigit (c : ascii) : Prop :=
  c ∈ ["0"; "1"; "2"; "3"; "4"; "5"; "6"; "7"; "8"; "9"]%char.

Fixpoint decimalDigits (s : string) : Prop :=
  match s with
  | EmptyString => True
  | String c s' => decimalDigit c ∧ decimalDigits s'
  end.

(** [forEach] and [filter] with a callback that may raise: the first
    exception ends the loop and is the result. *)
Fixpoint forEach {S A : Type} (body : S → A → option S) (s : S) (l : list A)
  : option S :=
  match l with
  | [] => Some s
  | x :: l' => s' ← body s x; forEach body s' l'
  end.

Fixpoint filterM {A : Type} (keep : A → option bool) (l : list A)
  : option (list A) :=
  match l with
  | [] => Some []
  | x :: l' =>
      b ← keep x;
      r ← filterM keep l';
      Some (if (b : bool) then x :: r else r)
  end.

End Js.

(** ** The document read by both pages

    [data/wardrive.geojson] after [JSON.parse]: a list of features,
    each with a properties object and a geometry, and the session
    summaries under [metadata.sessions] when the document has them.
    Both pages treat a document without [features] like one with an
    empty list.  Coordinates are degrees in fixed-point units; the
    pages only copy them. *)

Module Doc.
Import Js.

Inductive Geometry : Type :=
| Point (lon lat : Z)
| LineString (coordinates : list (Z * Z)).

Record Feature : Type := mkFeature {
  properties : JsObj;
  geometry : Geometry
}.

Record Document : Type := mkDocument {
  features : list Feature;
  metadata_sessions : option (list JsObj)
}.

#[global] Instance Geometry_eq_dec : EqDecision Geometry.
Proof. solve_decision. Defined.

#[global] Instance Feature_eq_dec : EqDecision Feature.
Proof. solve_decision. Defined.

End Doc.

(** ** stats.js: the statistics page *)

Module Stats.
Import Js Doc.

Record Security : Type := mkSecurity {
  wpa3 : nat;
  wpa2 : nat;
  legacy : nat;
  open : nat
}.

Record RssiRanges : Type := mkRssiRanges {
  excellent : nat;
  good : nat;
  fair : nat;
  weak : nat;
  poor : nat
}.

(** The counters the first loop of [updateStatsPage] fills.
    [channelCounts] is the object keyed by channel number. *)
Record Counters : Type := mkCounters {
  security : Security;
  channelCounts : gmap Z nat;
  rssiRanges : RssiRanges
}.

Definition incr_wpa3 (s : Security) : Security :=
  mkSecurity (S (wpa3 s)) (wpa2 s) (legacy s) (open s).
Definition incr_wpa2 (s : Security) : Security :=
  mkSecurity (wpa3 s) (S (wpa2 s)) (legacy s) (open s).
Definition incr_legacy (s : Security) : Security :=
  mkSecurity (wpa3 s) (wpa2 s) (S (legacy s)) (open s).
Definition incr_open (s : Security) : Security :=
  mkSecurity (wpa3 s) (wpa2 s) (legacy s) (S (open s)).

(** The security classification of one access point. *)
Definition classifySecurity (auth : string) (s : Security) : Security :=
  if includes auth "WPA3" then incr_wpa3 s
  else if includes auth "WPA2" then incr_wpa2 s
  else if includes auth "OPEN" || String.eqb auth "" || String.eqb auth "[]"
       then incr_open s
  else incr_legacy s.

(** [for (let i = 1; i <= 14; i++) channelCounts[i] = 0]. *)
Definition initChannels : gmap Z nat :=
  foldl (λ m i, <[i := 0%nat]> m) ∅ (seqZ 1 14).

(** [channelCounts[ch]++] under the guard [ch >= 1 && ch <= 14]. *)
Definition classifyChannel (ch : JsNum) (m : gmap Z nat) : gmap Z nat :=
  if num_ge ch (Num 1) && num_le ch (Num 14) then
    match ch with
    | Num n => alter S n m
    | NaN => m
    end
  else m.

(** The three constants the loop body reads from the properties:
    [(p.AuthMode || "").toUpperCase()], [p.best_rssi || -100] and
    [parseInt(p.Channel || 0)]. *)
Definition authOf (p : JsObj) : option string :=
  toUpperCase (js_or (get p "AuthMode") (JStr "")).

Definition rssiOf (p : JsObj) : JsVal :=
  js_or (get p "best_rssi") (JNum (-100)).

Definition channelOf (p : JsObj) : JsNum :=
  parseInt (js_or (get p "Channel") (JNum 0)).

Definition initCounters : Counters :=
  mkCounters (mkSecurity 0 0 0 0) initChannels (mkRssiRanges 0 0 0 0 0).

(** [f.properties.Vendor || 'Unknown'], as the key it is used as.  The
    map holds the own properties of [vendorCounts]; a vendor is not named
    like a member of [Object.prototype]. *)
Definition vendorKey (f : Feature) : string :=
  ToString (js_or (get (properties f) "Vendor") (JStr "Unknown")).

(** [vendorCounts[vendor] = (vendorCounts[vendor] || 0) + 1]. *)
Definition countVendor (m : gmap string nat) (f : Feature) : gmap string nat :=
  let vendor := vendorKey f in
  <[vendor := S (default 0%nat (m !! vendor))]> m.

(** What the page shows: the total, the three groups of counters
    handed to [renderCharts], and the vendor counts from which the ten
    largest are charted. *)
Record StatsView : Type := mkStatsView {
  totalWifi : nat;
  counters : Counters;
  vendorCounts : gmap string nat
}.

Inductive Outcome : Type :=
| NoData
| Failed
| Rendered (v : StatsView).

Section Runtime.
Variable StringToNumber : string → JsNum.

(** The signal classification of one access point. *)
Definition classifySignal (rssi : JsVal) (r : RssiRanges) : RssiRanges :=
  if ge_number StringToNumber rssi (Num (-60)) then
    mkRssiRanges (S (excellent r)) (good r) (fair r) (weak r) (poor r)
  else if ge_number StringToNumber rssi (Num (-70)) then
    mkRssiRanges (excellent r) (S (good r)) (fair r) (weak r) (poor r)
  else if ge_number StringToNumber rssi (Num (-80)) then
    mkRssiRanges (excellent r) (good r) (S (fair r)) (weak r) (poor r)
  else if ge_number StringToNumber rssi (Num (-90)) then
    mkRssiRanges (excellent r) (good r) (fair r) (S (weak r)) (poor r)
  else
    mkRssiRanges (excellent r) (good r) (fair r) (weak r) (S (poor r)).

(** The body of the first [features.forEach]. *)
Definition processFeature (c : Counters) (f : Feature) : option Counters :=
  let p := properties f in
  auth ← authOf p;
  let rssi := rssiOf p in
  let ch := channelOf p in
  Some (mkCounters (classifySecurity auth (security c))
                   (classifyChannel ch (channelCounts c))
                   (classifySignal rssi (rssiRanges c))).

(** [updateStatsPage] once the document has been fetched and parsed:
    no features shows the no-data message; an exception in the loop is
    caught and shows the error message. *)
Definition updateStatsPage (features : list Feature) : Outcome :=
  match features with
  | [] => NoData
  | _ =>
      match forEach processFeature initCounters features with
      | Some c =>
          Rendered (mkStatsView (length features) c
                                (foldl countVendor ∅ features))
      | None => Failed
      end
  end.

End Runtime.

(** *** Quantities the properties of the page are stated with *)




(** The number of features of a list whose channel is [k], and the
    number counted under one vendor key. *)
Definition chartCount (k : Z) (l : list Feature) : nat :=
  length (filter (λ f, channelOf (properties f) = Num k) l).

Definition vendorCount (key : string) (l : list Feature) : nat :=
  length (filter (λ f, vendorKey f = key) l).

End Stats.

(** ** app.js: the map page *)

Module App.
Import Js Doc.

(** *** Loading: the two sources of the map *)

(** The value of the global [allFeatures],
    [data.features.filter(f => f.properties.layer === 'access_points')],
    and that of [routeFeatures], the same for ['route']. *)
Definition accessPointFeatures (fs : list Feature) : list Feature :=
  filter (λ f, get (properties f) "layer" = JStr "access_points") fs.

Definition routeFeatures (fs : list Feature) : list Feature :=
  filter (λ f, get (properties f) "layer" = JStr "route") fs.

(** The data of the sources ['wardrive'] and ['routes']. *)
Record Sources : Type := mkSources {
  wardrive : list Feature;
  routes : list Feature
}.

(** The [load] handler up to [map.addSource]: [allFeatures] is kept in
    a global and is the data of ['wardrive']. *)
Definition addSources (data : Document) : Sources :=
  mkSources (accessPointFeatures (features data))
            (routeFeatures (features data)).


(** *** Style expressions

    The part of the expression language of the map library that
    [initLayers] uses in filters and in the security colour. *)
#[warnings="-register-all"]
Inductive Expr : Type :=
| Lit (v : JsVal)
| Get (k : string)
| Eq (a b : Expr)
| Any (es : list Expr)
| Match (input : Expr) (cases : list (JsVal * JsVal)) (fallback : JsVal).

(** ["get"] yields null for a property the feature does not have. *)
Definition getProperty (p : JsObj) (k : string) : JsVal :=
  match p !! k with
  | Some JUndefined | None => JNull
  | Some v => v
  end.

Fixpoint eval (p : JsObj) (e : Expr) : JsVal :=
  match e with
  | Lit v => v
  | Get k => getProperty p k
  | Eq a b => JBool (bool_decide (eval p a = eval p b))
  | Any es => JBool (existsb (λ e', bool_decide (eval p e' = JBool true)) es)
  | Match input cases fallback =>
      let v := eval p input in
      match List.find (λ c, bool_decide (fst c = v)) cases with
      | Some c => snd c
      | None => fallback
      end
  end.

Record Layer : Type := mkLayer {
  id : string;
  source : string;
  visible : bool;
  layerFilter : option Expr;
  circleColor : option Expr
}.

(** The filter of both open-network layers. *)
Definition openFilter : Expr :=
  Any [Eq (Get "AuthMode") (Lit (JStr "OPEN"));
       Eq (Get "AuthMode") (Lit (JStr ""))].

(** ["circle-color"] of the layer ['points-security']. *)
Definition securityColor : Expr :=
  Match (Get "AuthMode")
    [(JStr "WPA3_PSK", JStr "#4ade80");
     (JStr "WPA2_WPA3_PSK", JStr "#4ade80");
     (JStr "WPA2_PSK", JStr "#fbbf24");
     (JStr "WPA_WPA2_PSK", JStr "#fbbf24");
     (JStr "WPA2_ENTERPRISE", JStr "#fbbf24");
     (JStr "WPA_PSK", JStr "#fb923c");
     (JStr "WEP", JStr "#f87171");
     (JStr "OPEN", JStr "#ef4444");
     (JStr "", JStr "#ef4444")]
    (JStr "#94a3b8").

(** [initLayers]: the layers in the order they are added, with their
    source, initial visibility, filter and data-driven colour. *)
Definition initLayers : list Layer :=
  [mkLayer "route-glow" "routes" true None None;
   mkLayer "route-line" "routes" true None None;
   mkLayer "heatmap-density" "wardrive" true None None;
   mkLayer "points-open-glow" "wardrive" false (Some openFilter) None;
   mkLayer "points-open" "wardrive" false (Some openFilter) None;
   mkLayer "points-security" "wardrive" false None (Some securityColor);
   mkLayer "points-signal" "wardrive" false None None;
   mkLayer "points-default" "wardrive" true None None].

(** A layer draws the features of its source that pass its filter. *)
Definition passesFilter (l : Layer) (f : Feature) : bool :=
  match layerFilter l with
  | Some e => bool_decide (eval (properties f) e = JBool true)
  | None => true
  end.

(** *** The popup of a clicked access point *)

(** [secColor] in the click handler of [initInteractions]. *)
Definition secColor (p : JsObj) : option string :=
  auth ← as_string (get p "AuthMode");
  Some (if includes auth "OPEN" || String.eqb auth "" then "#ef4444"
        else if includes auth "WPA3" then "#10b981"
        else if includes auth "WPA2" then "#f59e0b"
        else "#94a3b8").

(** The text of the Security row: [p.AuthMode || 'Open']. *)
Definition securityLabel (p : JsObj) : string :=
  ToString (js_or (get p "AuthMode") (JStr "Open")).

(** *** The session dropdown *)




Section Dropdown.
(** [x.localeCompare(y)]: negative, zero or positive; the collation is
    the host's. *)
Variable localeCompare : string → string → Z.







End Dropdown.

(** *** Filtering *)

(** The controls [updateMapFilters] reads: the [value] of the search
    box, of the hidden session input and of the signal slider ([None]
    when the element is not in the page), and the global
    [activeVendorFilter] ([None] for [null]). *)
Record Controls : Type := mkControls {
  global_search : option string;
  session_filter : option string;
  rssi_slider : option string;
  activeVendorFilter : option string
}.


(** [document.getElementById('session-filter')?.value || 'all']. *)
Definition selectedSession (c : Controls) : string :=
  match session_filter c with
  | Some v => if String.eqb v "" then "all" else v
  | None => "all"
  end.

(** [rssiEl ? parseInt(rssiEl.value) : -100]. *)
Definition rssiVal (c : Controls) : JsNum :=
  match rssi_slider c with
  | Some v => parseInt_string v
  | None => Num (-100)
  end.

(** [p.best_rssi || -100]. *)
Definition signalOf (p : JsObj) : JsVal :=
  js_or (get p "best_rssi") (JNum (-100)).

(** The session filter: [true] when the callback goes on, [false] when
    it returns [false]. *)
Definition sessionFilter (selected : string) (p : JsObj) : option bool :=
  if bool_decide (selected ≠ "all") then
    sessions ← as_string (js_or (get p "sessions") (JStr ""));
    let apSessions := split "," sessions in
    Some (bool_decide (selected ∈ apSessions))
  else Some true.

(** The vendor filter:
    [activeVendorFilter && p.Vendor !== activeVendorFilter]. *)
Definition vendorFilter (active : option string) (p : JsObj) : bool :=
  match active with
  | Some name =>
      negb (truthy (JStr name) && negb (strict_eq (get p "Vendor") (JStr name)))
  | None => true
  end.

(** The search: the value the callback returns when [searchText] is not
    empty, as a boolean. *)
Definition searchFilter (searchText : string) (p : JsObj) : option bool :=
  ssid ← toLowerCase (get p "SSID");
  if includes ssid searchText then Some true
  else
    mac ← toLowerCase (get p "MAC");
    if includes mac searchText then Some true
    else if truthy (get p "Vendor") then
      vendor ← toLowerCase (get p "Vendor");
      Some (includes vendor searchText)
    else Some false.

Section Filters.
Variable StringToNumber : string → JsNum.

(** The callback of [allFeatures.filter] in [updateMapFilters]. *)
Definition keepFeature (searchText selected : string) (threshold : JsNum)
    (active : option string) (f : Feature) : option bool :=
  let p := properties f in
  let signal := signalOf p in
  if lt_number StringToNumber signal threshold then Some false
  else
    inSession ← sessionFilter selected p;
    if negb inSession then Some false
    else if negb (vendorFilter active p) then Some false
    else if truthy (JStr searchText) then searchFilter searchText p
    else Some true.

(** [updateMapFilters] with the source ['wardrive'] present: the
    features handed to [setData], or [None] when an exception leaves
    the source as it was. *)
Definition updateMapFilters (c : Controls) (allFeatures : list Feature)
  : option (list Feature) :=
  searchText ← lower <$> global_search c;
  filterM (keepFeature searchText (selectedSession c) (rssiVal c)
                       (activeVendorFilter c))
          allFeatures.

End Filters.

End App.

(** ** The data pipeline

    The program that writes [data/wardrive.geojson] is not among the
    sources; the definitions of this module follow the specification
    (sections 3, 4.1, 4.4, 4.6 and 6). *)

Module Pipeline.
Import Js Doc.

Local Open Scope Z_scope.

(** Modelled from the spec: the Observation of section 3 (the source
    of the Record Normalizer is missing).  Coordinates are degrees in
    fixed-point units, timestamps seconds. *)
Record Observation : Type := mkObservation {
  mac : string;
  ssid : string;
  authMode : string;
  channel : option Z;
  rssi : Z;
  lat : Z;
  lon : Z;
  timestamp : Z;
  sessionId : string
}.

#[global] Instance Observation_eq_dec : EqDecision Observation.
Proof. solve_decision. Defined.

(** Modelled from the spec: the AccessPointAggregate of section 3 (the
    source of the Identity Merger is missing).  [representativePoint]
    is a (lat, lon) pair. *)
Record AccessPointAggregate : Type := mkAggregate {
  ap_mac : string;
  ap_ssid : string;
  ap_authMode : string;
  ap_channel : option Z;
  vendor : string;
  bestRssi : Z;
  representativePoint : Z * Z;
  firstSeen : Z;
  lastSeen : Z;
  sessionIds : gset string;
  encounterCount : nat
}.

(** *** Vendor Directory *)

(** Modelled from the spec: one hex digit and one octet of the
    colon-separated hex pattern (section 4.3; the source of the
    normalizer is missing). *)
Definition hexDigit (c : ascii) : option Z := digit_value 16 c.

Definition parseOctet (s : string) : option Z :=
  match s with
  | String a (String b EmptyString) =>
      h ← hexDigit a; l ← hexDigit b; Some (16 * h + l)
  | _ => None
  end.

(** Modelled from the spec: the six octets of a MAC in colon-separated
    hex form, [None] for text of another shape (section 4.3; the source
    of the normalizer is missing). *)
Definition parseMac (text : string) : option (list Z) :=
  octets ← mapM parseOctet (split ":" (upper text));
  if bool_decide (length octets = 6%nat) then Some octets else None.

(** Modelled from the spec: the locally-administered bit, the second
    bit of the first octet (section 4.1). *)
Definition locallyAdministered (octets : list Z) : bool :=
  match octets with
  | o :: _ => Z.testbit o 1
  | [] => false
  end.

(** Modelled from the spec: the 24-bit organizational prefix, the
    first three octets (section 4.1). *)
Definition ouiPrefix (octets : list Z) : Z :=
  match octets with
  | a :: b :: c :: _ => Z.lor (Z.shiftl a 16) (Z.lor (Z.shiftl b 8) c)
  | _ => 0
  end.

(** Modelled from the spec: [resolve] of the Vendor Directory (section
    4.1; its source is missing).  The registry is the finished mapping
    from prefix to manufacturer name, empty when the source of the
    registry is unavailable.  Text that is no MAC is dropped by the
    normalizer before it reaches the directory; it is given ["Unknown"]
    here. *)
Definition resolve (registry : gmap Z string) (text : string) : string :=
  match parseMac text with
  | Some octets =>
      if locallyAdministered octets then "Randomized"
      else default "Unknown" (registry !! ouiPrefix octets)
  | None => "Unknown"
  end.

(** *** Identity Merger *)

Section Merger.
Variable registry : gmap Z string.
(** Modelled from the spec: the jitter scheme, the (lat, lon) offset
    derived from a mac (section 4.4); the scheme itself is left open
    (section 9). *)
Variable jitterOffset : string → Z * Z.

(** Modelled from the spec: grouping by mac (section 4.4): the
    distinct macs of the observations, and the group of one. *)
Definition macsOf (obs : list Observation) : list string :=
  remove_dups (mac <$> obs).

Definition groupOf (m : string) (obs : list Observation) : list Observation :=
  filter (λ o, mac o = m) obs.

(** Modelled from the spec: the strongest observation of a group and
    the chronologically last one (section 4.4).  Among equals the model
    takes the first, respectively the last, of the group. *)
Definition strongest (o : Observation) (rest : list Observation) : Observation :=
  foldl (λ best o', if rssi best <? rssi o' then o' else best) o rest.

Definition latest (o : Observation) (rest : list Observation) : Observation :=
  foldl (λ last o', if timestamp last <=? timestamp o' then o' else last) o rest.

(** Modelled from the spec: the min and max timestamp of a group
    (section 4.4). *)
Definition minTimestamp (o : Observation) (rest : list Observation) : Z :=
  foldl (λ t o', Z.min t (timestamp o')) (timestamp o) rest.

Definition maxTimestamp (o : Observation) (rest : list Observation) : Z :=
  foldl (λ t o', Z.max t (timestamp o')) (timestamp o) rest.

(** Modelled from the spec: the aggregate of one group (section 4.4,
    Algorithm; the source of the Identity Merger is missing). *)
Definition aggregate (m : string) (group : list Observation)
  : option AccessPointAggregate :=
  match group with
  | [] => None
  | o :: rest =>
      let best := strongest o rest in
      let last := latest o rest in
      Some (mkAggregate m (ssid last) (authMode last) (channel last)
              (resolve registry m)
              (rssi best) (lat best, lon best)
              (minTimestamp o rest) (maxTimestamp o rest)
              (list_to_set (sessionId <$> group))
              (length group))
  end.

(** Modelled from the spec: the aggregates before jitter, one per
    distinct mac (section 4.4). *)
Definition aggregateAll (obs : list Observation) : list AccessPointAggregate :=
  omap (λ m, aggregate m (groupOf m obs)) (macsOf obs).

(** Modelled from the spec: an aggregate collides when two or more
    aggregates have its point (section 4.4, Jitter policy). *)
Definition collides (all : list AccessPointAggregate) (a : AccessPointAggregate)
  : bool :=
  bool_decide (2 ≤ length (filter (λ b, representativePoint b = representativePoint a) all))%nat.

(** Modelled from the spec: an aggregate with its point moved by the
    offset of its mac (section 4.4, Jitter policy). *)
Definition addOffset (point offset : Z * Z) : Z * Z :=
  (fst point + fst offset, snd point + snd offset).

Definition displace (a : AccessPointAggregate) : AccessPointAggregate :=
  mkAggregate (ap_mac a) (ap_ssid a) (ap_authMode a) (ap_channel a) (vendor a)
    (bestRssi a) (addOffset (representativePoint a) (jitterOffset (ap_mac a)))
    (firstSeen a) (lastSeen a) (sessionIds a) (encounterCount a).

(** Modelled from the spec: the jitter policy (section 4.4): colliding
    aggregates are displaced, the others left as they are. *)
Definition applyJitter (all : list AccessPointAggregate)
  : list AccessPointAggregate :=
  (λ a, if collides all a then displace a else a) <$> all.

(** Modelled from the spec: [merge] of the Identity Merger (section
    4.4; its source is missing). *)
Definition merge (obs : list Observation) : list AccessPointAggregate :=
  applyJitter (aggregateAll obs).

End Merger.

(** Modelled from the spec: one scheme that meets the jitter policy
    (section 4.4): a hash of the characters of the mac, folded into an
    offset of at most 32 units either way. *)
Definition macHash (m : string) : Z :=
  foldl (λ h c, (h * 31 + Z.of_N (N_of_ascii c)) `mod` 65536) 0
        (String.list_ascii_of_string m).

Definition sampleOffset (m : string) : Z * Z :=
  (macHash m `mod` 64 - 32, (macHash m `div` 64) `mod` 64 - 32).

(** *** Document Emitter *)

(** Modelled from the spec: the RouteLine and the Session summary of
    sections 3 and 6 (the sources of the Route Builder and of the
    Session Indexer are missing).  A path is a sequence of (lon, lat)
    pairs. *)
Record RouteLine : Type := mkRouteLine {
  route_session : string;
  path : list (Z * Z)
}.

Record SessionSummary : Type := mkSessionSummary {
  name : string;
  date : string;
  ap_count : Z;
  duration_minutes : Z
}.

Section Emitter.
(** The text form of an instant, which the specification leaves open. *)
Variable formatTime : Z → string.

(** Modelled from the spec: an unknown channel (section 3) is written
    as null. *)
Definition channelValue (c : option Z) : JsVal :=
  match c with
  | Some n => JNum n
  | None => JNull
  end.

(** Modelled from the spec: the point feature of an aggregate (section
    6; the source of the Document Emitter is missing).  The property
    names are those of the README's data structure, which the pages
    read. *)
Definition apFeature (a : AccessPointAggregate) : Feature :=
  mkFeature
    (<["layer" := JStr "access_points"]>
       (list_to_map
          [("MAC", JStr (ap_mac a));
           ("SSID", JStr (ap_ssid a));
           ("AuthMode", JStr (ap_authMode a));
           ("Channel", channelValue (ap_channel a));
           ("Vendor", JStr (vendor a));
           ("best_rssi", JNum (bestRssi a));
           ("first_seen", JStr (formatTime (firstSeen a)));
           ("last_seen", JStr (formatTime (lastSeen a)));
           ("sessions", JStr (String.concat "," (elements (sessionIds a))));
           ("count", JNum (Z.of_nat (encounterCount a)))]))
    (Point (snd (representativePoint a)) (fst (representativePoint a))).

(** Modelled from the spec: the line feature of a route (section 6). *)
Definition routeFeature (r : RouteLine) : Feature :=
  mkFeature
    (<["layer" := JStr "route"]> {["session" := JStr (route_session r)]})
    (LineString (path r)).

(** Modelled from the spec: one entry of [metadata.sessions] (section
    6). *)
Definition sessionObject (s : SessionSummary) : JsObj :=
  list_to_map
    [("name", JStr (name s));
     ("date", JStr (date s));
     ("ap_count", JNum (ap_count s));
     ("duration_minutes", JNum (duration_minutes s))].

(** Modelled from the spec: [emit] of the Document Emitter (sections
    4.6 and 6; its source is missing): one point feature per aggregate,
    one line feature per non-empty route, and the session summaries. *)
Definition emit (aggregates : list AccessPointAggregate)
    (routes : list RouteLine) (sessions : list SessionSummary) : Document :=
  mkDocument
    ((apFeature <$> aggregates) ++
     (routeFeature <$> filter (λ r, path r ≠ []) routes))
    (Some (sessionObject <$> sessions)).

End Emitter.

End Pipeline.

(** ** A small run

    Three observations of three access points, two of them at the same
    point, and the document the pipeline emits for them.  The closing
    examples evaluate the pages on it. *)

Module Samples.
Import Js Doc Pipeline.

Local Open Scope Z_scope.

Definition home : Observation :=
  mkObservation "00:11:22:33:44:55" "Home" "WPA2_PSK" (Some 6) (-60)
                454743000 78927000 1000 "260204_164121".

Definition cafe : Observation :=
  mkObservation "00:11:22:33:44:66" "Cafe" "" (Some 36) 0
                454743000 78927000 1005 "260204_164121".

Definition phone : Observation :=
  mkObservation "02:AA:BB:CC:DD:EE" "Phone" "WPA2_WPA3_PSK" (Some 11) (-70)
                454744000 78928000 1010 "260205_194604".

Definition observations : list Observation := [home; cafe; phone].

Definition aggregates : list AccessPointAggregate :=
  merge ∅ sampleOffset observations.

(** The route and the session summaries of the run, and the summaries
    as the document holds them. *)
Definition routeLines : list RouteLine :=
  [mkRouteLine "260204_164121" [(78927000, 454743000); (78927100, 454743100)]].

Definition summaries : list SessionSummary :=
  [mkSessionSummary "260204_164121" "2026-02-04" 2 1;
   mkSessionSummary "260205_194604" "2026-02-05" 1 0].

Definition document : Document := emit pretty aggregates routeLines summaries.


(** The aggregates this run yields, and the point feature of the
    second. *)
Definition homeAggregate : AccessPointAggregate :=
  mkAggregate "00:11:22:33:44:55" "Home" "WPA2_PSK" (Some 6) "Unknown" (-60)
              (454742994, 78927026) 1000 1000 {["260204_164121"]} 1.

Definition cafeAggregate : AccessPointAggregate :=
  mkAggregate "00:11:22:33:44:66" "Cafe" "" (Some 36) "Unknown" 0
              (454743026, 78927026) 1005 1005 {["260204_164121"]} 1.

Definition phoneAggregate : AccessPointAggregate :=
  mkAggregate "02:AA:BB:CC:DD:EE" "Phone" "WPA2_WPA3_PSK" (Some 11) "Randomized"
              (-70) (454744000, 78928000) 1010 1010 {["260205_194604"]} 1.

Definition cafeFeature : Feature := apFeature pretty cafeAggregate.

(** A conversion of strings to numbers that reads integer literals. *)
Definition integerToNumber (s : string) : JsNum := parseInt_string s.


(** The controls with the slider at -90 dBm and nothing else set, and
    with the second session picked in the dropdown. *)
Definition controls : App.Controls :=
  App.mkControls (Some "") (Some "all") (Some "-90") None.


End Samples.

(** ** Objects built key by key

    The counting objects of both pages ([vendorCounts], [ssidCounts],
    [ssidVendors], [counts]) are filled with [o[k] = ...] and read back
    with [Object.entries]: the order of their keys matters, so they are
    lists of own properties in creation order. *)

Module Obj.
Import Js.

Section Records.
Context {V : Type}.

(** [o[k]]: the own property, if there is one. *)
Fixpoint property (o : list (string * V)) (k : string) : option V :=
  match o with
  | [] => None
  | e :: o' => if String.eqb (fst e) k then Some (snd e) else property o' k
  end.

(** [o[k] = v]: a property that exists keeps its place, a new one is
    created last. *)
Fixpoint assign (o : list (string * V)) (k : string) (v : V)
  : list (string * V) :=
  match o with
  | [] => [(k, v)]
  | e :: o' =>
      if String.eqb (fst e) k then (k, v) :: o' else e :: assign o' k v
  end.

End Records.

(** [o[k] = (o[k] || 0) + 1]. *)
Definition count (o : list (string * nat)) (k : string) : list (string * nat) :=
  assign o k (S (default 0%nat (property o k))).

(** [arr.sort(cmp)], a stable sort: [before a b] says that [cmp(a, b)]
    is not positive. *)
Section Sorting.
Context {A : Type} (before : A → A → bool).

Fixpoint insertBy (x : A) (l : list A) : list A :=
  match l with
  | [] => [x]
  | y :: l' => if before x y then x :: y :: l' else y :: insertBy x l'
  end.

Definition sortBy (l : list A) : list A := foldr insertBy [] l.

End Sorting.

(** A key that is an array index: the decimal text, without leading
    zeros, of an integer from 0 to 2^32 - 2. *)
Definition arrayIndex (k : string) : option Z :=
  match digits_go 10 None k with
  | Some n =>
      if String.eqb (pretty n) k && (n <? 4294967295)%Z then Some n else None
  | None => None
  end.

(** [Object.entries(o)]: the array indices in ascending order, then the
    other keys in creation order. *)
Definition ownEntries {V : Type} (o : list (string * V)) : list (string * V) :=
  (snd <$> sortBy (λ a b, (fst a <=? fst b)%Z)
             (omap (λ e, n ← arrayIndex (fst e); Some (n, e)) o))
  ++ filter (λ e, arrayIndex (fst e) = None) o.

(** The members of [Object.prototype].  Reading [o[k]] finds them in
    every object, so [o[k] || 0] is a number only for other keys: the
    lists above model an object for keys outside this list, and the
    properties of the counting objects are stated for such keys. *)
Definition inherited : list string :=
  ["constructor"; "__defineGetter__"; "__defineSetter__"; "hasOwnProperty";
   "__lookupGetter__"; "__lookupSetter__"; "isPrototypeOf";
   "propertyIsEnumerable"; "toString"; "valueOf"; "__proto__";
   "toLocaleString"].

Definition ownKey (k : string) : Prop := k ∉ inherited.

(** The comparator [(a, b) => b[1] - a[1]]: larger counts first. *)
Definition byCount (a b : string * nat) : bool := Nat.leb (snd b) (snd a).

End Obj.

(** ** stats.js: the vendor chart, the table of names and the charts *)

Module Dashboard.
Import Js Doc Stats Obj.

(** The second loop of [updateStatsPage]: [vendorCounts] with its keys
    in creation order. *)
Definition orderedVendorCounts (features : list Feature) : list (string * nat) :=
  foldl (λ o f, count o (vendorKey f)) [] features.

Definition sortedVendors (features : list Feature) : list (string * nat) :=
  take 10 (sortBy byCount (ownEntries (orderedVendorCounts features))).



(** [f.properties.SSID || ''], as the key it is used as. *)
Definition ssidKey (f : Feature) : string :=
  ToString (js_or (get (properties f) "SSID") (JStr "")).

(** The two objects of the third loop. *)
Record SsidTally : Type := mkSsidTally {
  ssidCounts : list (string * nat);
  ssidVendors : list (string * list (string * nat))
}.

(** The body of the third loop.  An object is truthy, so
    [!ssidVendors[ssid]] holds exactly when the key is new. *)
Definition countSsid (t : SsidTally) (f : Feature) : SsidTally :=
  let ssid := ssidKey f in
  let vendor := vendorKey f in
  let vendors :=
    match property (ssidVendors t) ssid with
    | Some _ => ssidVendors t
    | None => assign (ssidVendors t) ssid []
    end in
  mkSsidTally
    (count (ssidCounts t) ssid)
    (assign vendors ssid (count (default [] (property vendors ssid)) vendor)).

Definition ssidTally (features : list Feature) : SsidTally :=
  foldl countSsid (mkSsidTally [] []) features.

Definition topSSIDs (features : list Feature) : list (string * nat) :=
  take 15 (sortBy byCount (ownEntries (ssidCounts (ssidTally features)))).

(** One row of the table: the rank, the name shown ([None] for the
    [<hidden>] label of the empty name), the vendor and the count. *)
Record Row : Type := mkRow {
  rank : nat;
  displaySSID : option string;
  topVendor : string;
  networks : nat
}.

(** The callback of [topSSIDs.map].  [Object.entries] of an absent
    [vendorMap], and [[0][0]] of an empty array, raise. *)
Definition tableRow (vendors : list (string * list (string * nat)))
    (i : nat) (entry : string * nat) : option Row :=
  vendorMap ← property vendors (fst entry);
  first ← head (sortBy byCount (ownEntries vendorMap));
  Some (mkRow (S i)
              (if truthy (JStr (fst entry)) then Some (fst entry) else None)
              (fst first) (snd entry)).

(** The rows written into [#ssid-table-body], or [None] when a row
    raises. *)
Definition ssidTable (features : list Feature) : option (list Row) :=
  mapM id (imap (tableRow (ssidVendors (ssidTally features)))
                (topSSIDs features)).








(** [applyTheme]: whether [body] carries the class [light-theme]
    afterwards, which is what [isLightTheme] answers. *)
Definition applyTheme (localStorage : gmap string string) : bool :=
  let saved := match localStorage !! "netstalker-theme" with
               | Some v => ToString (js_or (JStr v) (JStr "dark"))
               | None => "dark"
               end in
  bool_decide (saved = "light").

End Dashboard.

(** ** app.js: the vendor chips *)

Module Chips.
Import Js Doc Stats App Obj.

(** [counts] of [buildVendorChips], over the global [allFeatures]. *)
Definition counts (allFeatures : list Feature) : list (string * nat) :=
  foldl (λ o f, count o (vendorKey f)) [] allFeatures.

(** [top]: the five largest vendors other than the two placeholders. *)
Definition top (allFeatures : list Feature) : list (string * nat) :=
  take 5 (sortBy byCount
            (filter (λ e, fst e ≠ "Randomized" ∧ fst e ≠ "Unknown")
                    (ownEntries (counts allFeatures)))).

(** [buildVendorChips] with [#vendor-chips] in the page: one chip for
    each entry of [top], in that order, given by its [title] and the
    count its text shows. *)
Definition buildVendorChips (allFeatures : list Feature) : list (string * nat) :=
  top allFeatures.

(** The click handler of the chip of [name], before it calls
    [updateMapFilters]. *)
Definition clickChip (name : string) (c : Controls) : Controls :=
  mkControls (global_search c) (session_filter c) (rssi_slider c)
             (if bool_decide (activeVendorFilter c = Some name) then None
              else Some name).

End Chips.

(** ** app.js: what the map shows

    The globals of the page, [localStorage], the class of [body] and the
    layout of the layers of the current style, and the functions behind
    the buttons.  The buttons are taken to be used once the map has
    loaded its data, and a theme change to be complete before the next
    click. *)

Module View.
Import Js App.

Record State : Type := mkState {
  currentStyle : string;
  currentMode : string;
  openHighlight : bool;
  routeVisible : bool;
  localStorage : gmap string string;
  lightTheme : bool;
  mapStyle : string;
  layout : gmap string bool
}.

(** [localStorage.getItem(k)]: null for an absent key. *)
Definition getItem (storage : gmap string string) (k : string) : JsVal :=
  match storage !! k with
  | Some v => JStr v
  | None => JNull
  end.

Definition darkStyle : string := "mapbox://styles/mapbox/dark-v11".
Definition lightStyle : string := "mapbox://styles/mapbox/light-v11".

(** The top level of the script: the globals read from [localStorage].
    [markup] says whether [body] carries [light-theme] in the page as
    served. *)
Definition start (markup : bool) (storage : gmap string string) : State :=
  let style := ToString (js_or (getItem storage "netstalker-theme") (JStr "dark")) in
  mkState style
          (ToString (js_or (getItem storage "netstalker-viewmode") (JStr "density")))
          false
          (negb (strict_eq (getItem storage "netstalker-route") (JStr "false")))
          storage
          (if String.eqb style "light" then true else markup)
          (if String.eqb style "light" then lightStyle else darkStyle)
          ∅.

(** [map.setLayoutProperty(id, 'visibility', ...)]: for a layer the
    style does not have the map reports an error and changes nothing. *)
Definition setLayoutProperty (id : string) (vis : bool) (m : gmap string bool)
  : gmap string bool :=
  alter (λ _, vis) id m.

(** [initLayers]: each [map.addLayer] adds the layer with its initial
    visibility; a layer whose id the style already has is refused. *)
Definition addLayer (m : gmap string bool) (l : Layer) : gmap string bool :=
  match m !! id l with
  | Some _ => m
  | None => <[id l := visible l]> m
  end.

Definition addLayers (m : gmap string bool) : gmap string bool :=
  foldl addLayer m initLayers.

Definition withLayout (st : State) (m : gmap string bool) : State :=
  mkState (currentStyle st) (currentMode st) (openHighlight st)
          (routeVisible st) (localStorage st) (lightTheme st) (mapStyle st) m.

Definition setViewMode (mode : string) (st : State) : State :=
  let hidden :=
    setLayoutProperty "points-default" false
      (setLayoutProperty "points-signal" false
         (setLayoutProperty "points-security" false
            (setLayoutProperty "heatmap-density" false (layout st)))) in
  let shown :=
    if String.eqb mode "density" then
      setLayoutProperty "points-default" true
        (setLayoutProperty "heatmap-density" true hidden)
    else if String.eqb mode "security" then
      setLayoutProperty "points-security" true hidden
    else if String.eqb mode "signal" then
      setLayoutProperty "points-signal" true hidden
    else if String.eqb mode "none" then
      setLayoutProperty "points-default" true hidden
    else hidden in
  mkState (currentStyle st) mode (openHighlight st) (routeVisible st)
          (<["netstalker-viewmode" := mode]> (localStorage st))
          (lightTheme st) (mapStyle st) shown.

Definition toggleOpenNetworks (st : State) : State :=
  let vis := negb (openHighlight st) in
  mkState (currentStyle st) (currentMode st) vis (routeVisible st)
          (localStorage st) (lightTheme st) (mapStyle st)
          (setLayoutProperty "points-open-glow" vis
             (setLayoutProperty "points-open" vis (layout st))).

Definition toggleRoute (st : State) : State :=
  let vis := negb (routeVisible st) in
  mkState (currentStyle st) (currentMode st) (openHighlight st) vis
          (<["netstalker-route" := ToString (JBool vis)]> (localStorage st))
          (lightTheme st) (mapStyle st)
          (setLayoutProperty "route-glow" vis
             (setLayoutProperty "route-line" vis (layout st))).

(** [if (!routeVisible) { ... }] of the load handler and of
    [toggleTheme]. *)
Definition hideRoute (st : State) : State :=
  if routeVisible st then st
  else withLayout st (setLayoutProperty "route-glow" false
                        (setLayoutProperty "route-line" false (layout st))).

(** The load handler from [initLayers] on, which it reaches when the
    document has features. *)
Definition mapLoaded (st : State) : State :=
  hideRoute (setViewMode (currentMode st) (withLayout st (addLayers (layout st)))).

(** [toggleTheme] together with its [style.load] callback: [setStyle]
    replaces the style, and with it every layer. *)
Definition switchTheme (st : State) : State :=
  let dark := String.eqb (currentStyle st) "dark" in
  let style := if dark then "light" else "dark" in
  let st1 :=
    mkState style (currentMode st) (openHighlight st) (routeVisible st)
            (<["netstalker-theme" := style]> (localStorage st))
            dark (if dark then lightStyle else darkStyle) (addLayers ∅) in
  let st2 := setViewMode (currentMode st1) st1 in
  let st3 :=
    if openHighlight st2 then
      withLayout st2 (setLayoutProperty "points-open-glow" true
                        (setLayoutProperty "points-open" true (layout st2)))
    else st2 in
  hideRoute st3.

(** The layout with the eight layers of [initLayers] at the given
    visibilities, and the layout the three flags call for; the
    properties of the buttons compare [layout] with it. *)
Definition layoutOf (routeGlow routeLine heatmap openGlow openCore
                     security signal points : bool) : gmap string bool :=
  list_to_map
    [("route-glow", routeGlow); ("route-line", routeLine);
     ("heatmap-density", heatmap);
     ("points-open-glow", openGlow); ("points-open", openCore);
     ("points-security", security); ("points-signal", signal);
     ("points-default", points)].

Definition expectedLayout (mode : string) (openHighlight routeVisible : bool)
  : gmap string bool :=
  layoutOf routeVisible routeVisible (String.eqb mode "density")
           openHighlight openHighlight
           (String.eqb mode "security") (String.eqb mode "signal")
           (String.eqb mode "density" || String.eqb mode "none").

(** What holds of the page throughout a visit: the layers shown are
    those the flags call for, [localStorage] holds the theme, the view
    mode and the route flag, and the style of the map is that of the
    theme. *)
Definition consistent (st : State) : Prop :=
  layout st = expectedLayout (currentMode st) (openHighlight st) (routeVisible st) ∧
  ToString (js_or (getItem (localStorage st) "netstalker-theme") (JStr "dark"))
  = currentStyle st ∧
  getItem (localStorage st) "netstalker-viewmode" = JStr (currentMode st) ∧
  negb (strict_eq (getItem (localStorage st) "netstalker-route") (JStr "false"))
  = routeVisible st ∧
  mapStyle st
  = (if String.eqb (currentStyle st) "light" then lightStyle else darkStyle).

(** A click on one of the buttons. *)
Inductive Action : Type :=
| SetViewMode (mode : string)
| ToggleOpenNetworks
| ToggleRoute
| ToggleTheme.

Definition click (st : State) (a : Action) : State :=
  match a with
  | SetViewMode mode => setViewMode mode st
  | ToggleOpenNetworks => toggleOpenNetworks st
  | ToggleRoute => toggleRoute st
  | ToggleTheme => switchTheme st
  end.

(** A visit of the page: the script starts, the map loads, the buttons
    are clicked. *)
Definition visit (markup : bool) (storage : gmap string string)
    (clicks : list Action) : State :=
  foldl click (mapLoaded (start markup storage)) clicks.

End View.

(** ** A small survey

    Five access points as the map page holds them in [allFeatures]:
    two share a name and a vendor, one is open, one hides its name and
    has no vendor, one has a randomized address. *)

Module Survey.
Import Js Doc.

Local Open Scope Z_scope.

Definition accessPoint (mac ssid auth vendor : string) (rssi channel : Z)
    (sessions : string) : Feature :=
  mkFeature
    (list_to_map
       [("MAC", JStr mac); ("SSID", JStr ssid); ("AuthMode", JStr auth);
        ("Vendor", JStr vendor); ("best_rssi", JNum rssi);
        ("Channel", JNum channel); ("sessions", JStr sessions);
        ("layer", JStr "access_points")])
    (Point 78927000 454743000).

Definition office1 : Feature :=
  accessPoint "00:11:22:33:44:01" "Office" "WPA2_PSK" "Cisco" (-55) 6
              "260204_164121".

Definition office2 : Feature :=
  accessPoint "00:11:22:33:44:02" "Office" "WPA2_PSK" "Cisco" (-72) 6
              "260204_164121,260205_194604".

Definition guest : Feature :=
  accessPoint "00:11:22:33:44:03" "Guest" "" "TP-Link" (-85) 11
              "260205_194604".

Definition hidden : Feature :=
  accessPoint "00:11:22:33:44:04" "" "WPA3_PSK" "" (-95) 1 "260205_194604".

Definition handset : Feature :=
  accessPoint "02:AA:BB:CC:DD:05" "Phone" "WPA2_WPA3_PSK" "Randomized" (-64) 36
              "260205_194604".

Definition allFeatures : list Feature :=
  [office1; office2; guest; hidden; handset].

(** The controls of the page as served: an empty search box, every
    session, the slider at -100 dBm, no vendor chip pressed. *)
Definition fresh : App.Controls :=
  App.mkControls (Some "") (Some "all") (Some "-100") None.

End Survey.

(** * Properties *)

Import Js Doc Stats App Pipeline.

(** Case analysis on membership in a list that is written out: [tac]
    is run on each member in turn. *)
Ltac each_member H tac :=
  repeat (apply elem_of_cons in H as [->|H]; [tac|]);
  try (by apply elem_of_nil in H).

(** ** The runtime operations *)

Section ParseIntFacts.
Local Open Scope Z_scope.

Lemma pretty_N_char_digit (d : N) : decimalDigit (pretty_N_char d).
Proof.
  unfold decimalDigit, pretty_N_char.
  repeat case_match; set_solver.
Qed.

Lemma digit_value_pretty (d : N) :
  (d < 10)%N → digit_value 10 (pretty_N_char d) = Some (Z.of_N d).
Proof.
  intros Hd. destruct d as [|p]; [done|].
  repeat (destruct p as [p|p|]; try lia; try done).
Qed.

Lemma pretty_N_go_digits (x : N) (s : string) :
  decimalDigits s → decimalDigits (pretty_N_go x s).
Proof.
  revert s. induction (N.lt_wf_0 x) as [x _ IH]; intros s Hs.
  destruct (decide (x = 0)%N) as [->|Hx]; [by rewrite pretty_N_go_0|].
  rewrite pretty_N_go_step by lia.
  apply IH; [apply N.div_lt; lia|].
  split; [apply pretty_N_char_digit | done].
Qed.

Lemma pretty_N_go_value (x : N) :
  (0 < x)%N →
  ∃ k : Z, 0 ≤ k ∧ ∀ acc s,
    digits_go 10 acc (pretty_N_go x s)
    = digits_go 10 (Some (default 0 acc * 10 ^ k + Z.of_N x)) s.
Proof.
  induction (N.lt_wf_0 x) as [x _ IH]; intros Hx.
  destruct (decide (x `div` 10 = 0)%N) as [Hsmall|Hbig].
  - exists 1. split; [lia|]. intros acc s.
    rewrite pretty_N_go_step, Hsmall, pretty_N_go_0 by done. simpl.
    rewrite digit_value_pretty by (apply N.mod_lt; lia).
    do 2 f_equal.
    assert (x = x `mod` 10)%N as <-; [|lia].
    rewrite (N.div_mod x 10) at 1 by lia. lia.
  - destruct (IH (x `div` 10)%N) as (k & Hk & Hgo); [apply N.div_lt; lia | by apply N.neq_0_lt_0 |].
    exists (k + 1). split; [lia|]. intros acc s.
    rewrite pretty_N_go_step, Hgo by done. simpl.
    rewrite digit_value_pretty by (apply N.mod_lt; lia). simpl.
    do 2 f_equal. rewrite Z.pow_add_r by lia.
    rewrite (N.div_mod x 10) at 3 by lia.
    rewrite N2Z.inj_add, N2Z.inj_mul. lia.
Qed.

Lemma decimal_not_hex_prefix (c : ascii) (s : string) :
  decimalDigit c → decimalDigits s →
  strip_hex_prefix (String c s) = (10, String c s).
Proof.
  intros Hc Hs. unfold decimalDigit in Hc.
  each_member Hc ltac:(try done).
  destruct s as [|c' s']; [done|]. destruct Hs as [Hc' _].
  unfold decimalDigit in Hc'.
  each_member Hc' ltac:(done).
Qed.

Lemma decimal_not_sign (c : ascii) (s : string) :
  decimalDigit c →
  skip_space (String c s) = String c s ∧ strip_sign (String c s) = (1, String c s).
Proof.
  intros Hc. unfold decimalDigit in Hc.
  each_member Hc ltac:(done).
Qed.

Lemma parseInt_string_digits (p : positive) :
  ∃ c s, pretty_N_go (N.pos p) "" = String c s ∧ decimalDigits (String c s) ∧
         digits_go 10 None (String c s) = Some (Z.pos p).
Proof.
  destruct (pretty_N_go_value (N.pos p)) as (k & _ & Hgo); [lia|].
  specialize (Hgo None ""). simpl in Hgo.
  pose proof (pretty_N_go_digits (N.pos p) "" I) as Hdigits.
  destruct (pretty_N_go (N.pos p) "") as [|c s]; [done|].
  exists c, s. repeat split; [apply Hdigits.. |].
  rewrite Hgo. f_equal.
Qed.

(** [parseInt] of a number is that number: the decimal text of an
    integer reads back as the integer. *)
Lemma parseInt_JNum (n : Z) : parseInt (JNum n) = Num n.
Proof.
  unfold parseInt, ToString, pretty, pretty_Z.
  destruct n as [|p|p].
  - done.
  - change (parseInt_string (pretty_N_go (N.pos p) "") = Num (Z.pos p)).
    destruct (parseInt_string_digits p) as (c & s & -> & Hd & Hgo).
    unfold parseInt_string.
    destruct (decimal_not_sign c s) as [-> ->]; [apply Hd|].
    rewrite decimal_not_hex_prefix by apply Hd.
    rewrite Hgo. f_equal.
  - change (parseInt_string (String "-" (pretty_N_go (N.pos p) "")) = Num (Z.neg p)).
    destruct (parseInt_string_digits p) as (c & s & -> & Hd & Hgo).
    unfold parseInt_string.
    change (skip_space (String "-" (String c s))) with (String "-" (String c s)).
    change (strip_sign (String "-" (String c s))) with (-1, String c s).
    cbv beta iota zeta.
    rewrite decimal_not_hex_prefix by apply Hd.
    rewrite Hgo. f_equal.
Qed.

End ParseIntFacts.

Section LoopFacts.
Context {S A : Type}.



End LoopFacts.

Section StatsFacts.
Variable StringToNumber : string → JsNum.



Lemma processFeature_Some (c : Counters) (f : Feature) (c' : Counters) :
  processFeature StringToNumber c f = Some c' ↔
  ∃ auth, authOf (properties f) = Some auth ∧
    c' = mkCounters (classifySecurity auth (security c))
           (classifyChannel (channelOf (properties f)) (channelCounts c))
           (classifySignal StringToNumber (rssiOf (properties f)) (rssiRanges c)).
Proof.
  unfold processFeature. split.
  - destruct (authOf (properties f)) as [auth|]; simpl; [|done].
    intros [= <-]. by exists auth.
  - intros (auth & -> & ->). done.
Qed.





Lemma foldl_countVendor_lookup (l : list Feature) (m : gmap string nat) (key : string) :
  foldl countVendor m l !! key
  = if bool_decide (vendorCount key l = 0%nat) then m !! key
    else Some (default 0%nat (m !! key) + vendorCount key l)%nat.
Proof.
  revert m. induction l as [|f l IH]; intros m; simpl; [done|].
  rewrite IH. clear IH. unfold vendorCount, countVendor. rewrite filter_cons.
  destruct (decide (vendorKey f = key)) as [->|Hne].
  - rewrite lookup_insert_eq. simpl.
    case_bool_decide as Hz; f_equal; lia.
  - by rewrite lookup_insert_ne.
Qed.


Lemma updateStatsPage_Rendered (fs : list Feature) (v : StatsView) :
  updateStatsPage StringToNumber fs = Rendered v ↔
  fs ≠ [] ∧ ∃ c, forEach (processFeature StringToNumber) initCounters fs = Some c ∧
    v = mkStatsView (length fs) c (foldl countVendor ∅ fs).
Proof.
  unfold updateStatsPage. destruct fs as [|f fs]; [split; [done | by intros [? _]]|].
  destruct (forEach _ _ (f :: fs)) as [c|].
  - split; [intros [= <-]; split; [done | by exists c] |].
    intros (_ & c0 & [= <-] & ->). done.
  - split; [done | intros (_ & c0 & [=] & _)].
Qed.

Lemma authOf_string (p : JsObj) (s : string) :
  get p "AuthMode" = JStr s → authOf p = Some (upper s).
Proof.
  intros Hs. unfold authOf, js_or. rewrite Hs. simpl.
  by destruct (String.eqb s "") eqn:Hempty; [apply String.eqb_eq in Hempty as ->|].
Qed.


Lemma chartCount_app (k : Z) (l1 l2 : list Feature) :
  chartCount k (l1 ++ l2) = (chartCount k l1 + chartCount k l2)%nat.
Proof. unfold chartCount. by rewrite filter_app, length_app. Qed.

Lemma vendorCount_app (key : string) (l1 l2 : list Feature) :
  vendorCount key (l1 ++ l2) = (vendorCount key l1 + vendorCount key l2)%nat.
Proof. unfold vendorCount. by rewrite filter_app, length_app. Qed.



End StatsFacts.

(** ** The map page *)

Section FilterLoop.
Context {A : Type}.

Lemma filterM_Some (keep : A → option bool) (l r : list A) :
  filterM keep l = Some r →
  Forall (λ x, is_Some (keep x)) l ∧ r = filter (λ x, keep x = Some true) l.
Proof.
  revert r. induction l as [|x l IH]; intros r Hrun; simpl in Hrun.
  - injection Hrun as <-. by split.
  - destruct (keep x) as [b|] eqn:Hx; simpl in Hrun; [|done].
    destruct (filterM keep l) as [r0|]; simpl in Hrun; [|done].
    injection Hrun as <-. destruct (IH r0 eq_refl) as [Hall ->].
    split; [constructor; [by rewrite Hx | done]|].
    rewrite filter_cons, Hx. destruct b.
    + by rewrite decide_True.
    + by rewrite decide_False.
Qed.

Lemma filterM_is_Some (keep : A → option bool) (l : list A) :
  Forall (λ x, is_Some (keep x)) l → is_Some (filterM keep l).
Proof.
  induction 1 as [|x l [b Hx] _ [r Hr]]; simpl; [by eexists|].
  rewrite Hx, Hr. by eexists.
Qed.

End FilterLoop.

Section AppFacts.
Variable StringToNumber : string → JsNum.

Lemma getProperty_string (p : JsObj) (k s : string) :
  get p k = JStr s → getProperty p k = JStr s.
Proof.
  unfold get, getProperty. destruct (p !! k) as [w|]; simpl; [|done].
  by intros ->.
Qed.

(** C5: an empty auth mode is classified like ["OPEN"] and never as a
    secure class: the statistics page counts both as open, the filter
    of both open-network layers lets both through,
    the security colour of the map and the colour of the popup are the
    red of open networks for both, and the popup labels the empty one
    ["Open"] and the other ["OPEN"]. *)
Theorem empty_auth_mode_is_open (p : JsObj) :
  get p "AuthMode" = JStr "" ∨ get p "AuthMode" = JStr "OPEN" →
  (∀ (c : Counters) (f : Feature),
     properties f = p →
     security <$> processFeature StringToNumber c f
     = Some (incr_open (security c))) ∧
  (∀ (l : Layer) (f : Feature),
     l ∈ initLayers → id l = "points-open-glow" ∨ id l = "points-open" →
     properties f = p → passesFilter l f = true) ∧
  eval p securityColor = JStr "#ef4444" ∧
  secColor p = Some "#ef4444" ∧
  (get p "AuthMode" = JStr "" → securityLabel p = "Open") ∧
  (get p "AuthMode" = JStr "OPEN" → securityLabel p = "OPEN").
Proof.
  intros Hauth. repeat split.
  - intros c f <-. unfold processFeature.
    destruct Hauth as [Hauth|Hauth]; rewrite (authOf_string _ _ Hauth); done.
  - intros l f Hl Hid <-. unfold initLayers in Hl.
    each_member Hl ltac:(try (by destruct Hid as [[=]|[=]])).
    all: unfold passesFilter; simpl.
    all: destruct Hauth as [Hauth|Hauth];
      rewrite (getProperty_string _ _ _ Hauth); done.
  - simpl. destruct Hauth as [Hauth|Hauth];
      rewrite (getProperty_string _ _ _ Hauth); done.
  - unfold secColor. destruct Hauth as [->| ->]; done.
  - intros Hempty. unfold securityLabel, js_or. by rewrite Hempty.
  - intros Hopen. unfold securityLabel, js_or. by rewrite Hopen.
Qed.


(** The callback returns [false] without raising when the signal is
    below the threshold, whatever else the feature holds. *)
Lemma keepFeature_weak (searchText selected : string) (threshold : JsNum)
    (active : option string) (f : Feature) :
  lt_number StringToNumber (signalOf (properties f)) threshold = true →
  keepFeature StringToNumber searchText selected threshold active f = Some false.
Proof. intros Hweak. unfold keepFeature. by rewrite Hweak. Qed.

Lemma updateMapFilters_Some (c : Controls) (fs out : list Feature) :
  updateMapFilters StringToNumber c fs = Some out →
  ∃ text, global_search c = Some text ∧
    out = filter (λ f, keepFeature StringToNumber (lower text) (selectedSession c)
                         (rssiVal c) (activeVendorFilter c) f = Some true) fs.
Proof.
  unfold updateMapFilters. destruct (global_search c) as [text|]; simpl; [|done].
  intros [_ ->]%filterM_Some. by exists text.
Qed.

(** C8: the signal filter reads an absent or zero [best_rssi] as
    -100 dBm, so that under every threshold above -100 the callback of
    the filter answers [false] for such a feature, and no list of
    features that [updateMapFilters] hands to the map contains it. *)
Theorem zero_rssi_is_filtered_out (f : Feature) :
  get (properties f) "best_rssi" = JUndefined ∨
  get (properties f) "best_rssi" = JNum 0 →
  signalOf (properties f) = JNum (-100) ∧
  ∀ (c : Controls) (t : Z),
    rssiVal c = Num t → (-100 < t)%Z →
    (∀ searchText,
       keepFeature StringToNumber searchText (selectedSession c) (rssiVal c)
         (activeVendorFilter c) f = Some false) ∧
    (∀ fs out, updateMapFilters StringToNumber c fs = Some out → f ∉ out).
Proof.
  intros Hrssi.
  assert (signalOf (properties f) = JNum (-100)) as Hsignal.
  { unfold signalOf, js_or. by destruct Hrssi as [-> | ->]. }
  split; [done|]. intros c t Ht Hgt.
  assert (lt_number StringToNumber (signalOf (properties f)) (rssiVal c) = true)
    as Hweak.
  { rewrite Hsignal, Ht. unfold lt_number. simpl. by apply Z.ltb_lt. }
  split.
  - intros searchText. by apply keepFeature_weak.
  - intros fs out (text & _ & ->)%updateMapFilters_Some.
    intros [Hkeep _]%list_elem_of_filter.
    by rewrite keepFeature_weak in Hkeep.
Qed.

Variable localeCompare : string → string → Z.





Lemma selectedSession_not_empty (c : Controls) : selectedSession c ≠ "".
Proof.
  unfold selectedSession. destruct (session_filter c) as [v|]; [|done].
  destruct (String.eqb v "") eqn:Hv; [done|]. by apply String.eqb_neq.
Qed.


End AppFacts.

(** ** The pipeline *)

Section PipelineFacts.
Local Open Scope Z_scope.
Variable registry : gmap Z string.
Variable jitterOffset : string → Z * Z.

Lemma strongest_spec (o : Observation) (rest : list Observation) :
  strongest o rest ∈ o :: rest ∧
  ∀ o', o' ∈ o :: rest → rssi o' ≤ rssi (strongest o rest).
Proof.
  unfold strongest. revert o. induction rest as [|x rest IH]; intros o; simpl.
  - split; [by left|]. intros o' ->%list_elem_of_singleton. lia.
  - destruct (rssi o <? rssi x) eqn:Hlt.
    + apply Z.ltb_lt in Hlt. destruct (IH x) as [Hin Hmax]. split; [by right|].
      intros o' [->|Ho']%elem_of_cons; [|by apply Hmax].
      pose proof (Hmax x ltac:(by left)). lia.
    + apply Z.ltb_ge in Hlt. destruct (IH o) as [Hin Hmax]. split.
      * apply elem_of_cons in Hin as [->|Hin]; [by left | by do 2 right].
      * intros o' [->|[->|Ho']%elem_of_cons]%elem_of_cons.
        -- apply Hmax. by left.
        -- pose proof (Hmax o ltac:(by left)). lia.
        -- apply Hmax. by right.
Qed.

Lemma minTimestamp_le (o : Observation) (rest : list Observation) :
  minTimestamp o rest ≤ timestamp o.
Proof.
  unfold minTimestamp. generalize (timestamp o) as t.
  induction rest as [|x rest IH]; intros t; simpl; [lia|].
  etrans; [apply IH | lia].
Qed.

Lemma maxTimestamp_ge (o : Observation) (rest : list Observation) :
  timestamp o ≤ maxTimestamp o rest.
Proof.
  unfold maxTimestamp. generalize (timestamp o) as t.
  induction rest as [|x rest IH]; intros t; simpl; [lia|].
  etrans; [|apply IH]. lia.
Qed.

Lemma aggregate_Some (m : string) (group : list Observation) (a : AccessPointAggregate) :
  aggregate registry m group = Some a →
  ∃ o rest, group = o :: rest ∧
    ap_mac a = m ∧
    bestRssi a = rssi (strongest o rest) ∧
    representativePoint a = (lat (strongest o rest), lon (strongest o rest)) ∧
    firstSeen a ≤ lastSeen a ∧
    sessionIds a ≠ ∅ ∧
    encounterCount a = length group.
Proof.
  unfold aggregate. destruct group as [|o rest]; [done|]. intros [= <-].
  exists o, rest. simpl. repeat split.
  - etrans; [apply minTimestamp_le | apply maxTimestamp_ge].
  - apply (non_empty_inhabited_L (sessionId o)). set_solver.
Qed.

Lemma groupOf_mac (m : string) (obs : list Observation) :
  m ∈ macsOf obs → groupOf m obs ≠ [].
Proof.
  unfold macsOf, groupOf. rewrite elem_of_remove_dups, list_elem_of_fmap.
  intros (o & -> & Ho) Hempty.
  assert (o ∈ filter (λ o', mac o' = mac o) obs) as Hin
    by (by apply list_elem_of_filter).
  rewrite Hempty in Hin. by apply elem_of_nil in Hin.
Qed.

Lemma aggregateAll_elem (obs : list Observation) (a : AccessPointAggregate) :
  a ∈ aggregateAll registry obs ↔
  ap_mac a ∈ macsOf obs ∧
  aggregate registry (ap_mac a) (groupOf (ap_mac a) obs) = Some a.
Proof.
  unfold aggregateAll. rewrite list_elem_of_omap. split.
  - intros (m & Hm & Hagg).
    pose proof (aggregate_Some _ _ _ Hagg) as (_ & _ & _ & <- & _). done.
  - intros [Hm Hagg]. by exists (ap_mac a).
Qed.

Lemma aggregateAll_macs (obs : list Observation) :
  ap_mac <$> aggregateAll registry obs = macsOf obs.
Proof.
  unfold aggregateAll.
  assert (∀ m, m ∈ macsOf obs →
    ∃ a, aggregate registry m (groupOf m obs) = Some a ∧ ap_mac a = m) as Hall.
  { intros m Hm%groupOf_mac. unfold aggregate.
    destruct (groupOf m obs); [done|]. by eexists. }
  induction (macsOf obs) as [|m l IH]; simpl; [done|].
  destruct (Hall m) as (a & -> & Ha); [by left|]. simpl.
  f_equal; [done|]. apply IH. intros m' Hm'. apply Hall. by right.
Qed.

Lemma applyJitter_macs (all : list AccessPointAggregate) :
  ap_mac <$> applyJitter jitterOffset all = ap_mac <$> all.
Proof.
  unfold applyJitter. rewrite <-list_fmap_compose. apply list_fmap_ext.
  intros i a _. simpl. by destruct (collides all a).
Qed.

Lemma merge_elem (obs : list Observation) (a : AccessPointAggregate) :
  a ∈ merge registry jitterOffset obs ↔
  ∃ a0, a0 ∈ aggregateAll registry obs ∧
    a = if collides (aggregateAll registry obs) a0
        then displace jitterOffset a0 else a0.
Proof.
  unfold merge, applyJitter. rewrite list_elem_of_fmap.
  split; [intros (a0 & -> & Ha0) | intros (a0 & Ha0 & ->)]; by exists a0.
Qed.

Lemma merge_macs (obs : list Observation) :
  ap_mac <$> merge registry jitterOffset obs = macsOf obs.
Proof. unfold merge. by rewrite applyJitter_macs, aggregateAll_macs. Qed.

(** What jitter leaves alone: everything but the point. *)
Lemma jittered_fields (all : list AccessPointAggregate) (a0 : AccessPointAggregate) :
  let a := if collides all a0 then displace jitterOffset a0 else a0 in
  ap_mac a = ap_mac a0 ∧ bestRssi a = bestRssi a0 ∧
  firstSeen a = firstSeen a0 ∧ lastSeen a = lastSeen a0 ∧
  sessionIds a = sessionIds a0 ∧ encounterCount a = encounterCount a0.
Proof. simpl. by destruct (collides all a0). Qed.

(** C1, amended: the aggregate of a group of observations with one
    mac has the maximum rssi of the group as [bestRssi]; its
    [representativePoint] is the (lat, lon) of an observation of the
    group that attained this maximum when no other aggregate has that
    point, and that point moved by the jitter offset of the mac when
    another aggregate has it. *)
Theorem merge_best_rssi_and_point (obs : list Observation) (a : AccessPointAggregate) :
  a ∈ merge registry jitterOffset obs →
  ∃ o a0,
    a0 ∈ aggregateAll registry obs ∧
    o ∈ groupOf (ap_mac a) obs ∧
    (∀ o', o' ∈ groupOf (ap_mac a) obs → rssi o' ≤ rssi o) ∧
    bestRssi a = rssi o ∧
    representativePoint a0 = (lat o, lon o) ∧
    representativePoint a
    = if collides (aggregateAll registry obs) a0
      then addOffset (lat o, lon o) (jitterOffset (ap_mac a))
      else (lat o, lon o).
Proof.
  intros (a0 & Ha0 & ->)%merge_elem.
  pose proof (jittered_fields (aggregateAll registry obs) a0) as (Hmac & Hbest & _).
  simpl in Hmac, Hbest. rewrite Hmac, Hbest.
  apply aggregateAll_elem in Ha0 as Hagg. destruct Hagg as [_ Hagg].
  apply aggregate_Some in Hagg as (o & rest & Hgroup & _ & Hrssi & Hpoint & _).
  destruct (strongest_spec o rest) as [Hin Hmax].
  exists (strongest o rest), a0. rewrite Hgroup.
  repeat split; [done.. |].
  destruct (collides (aggregateAll registry obs) a0); simpl; by rewrite Hpoint.
Qed.

(** Where the jitter policy separates two aggregates that share a
    point, one of them no longer has the point of its observation. *)
Lemma jitter_moves_one_of_two (all : list AccessPointAggregate)
    (a0 b0 : AccessPointAggregate) :
  representativePoint a0 = representativePoint b0 →
  representativePoint (displace jitterOffset a0)
    ≠ representativePoint (displace jitterOffset b0) →
  representativePoint (displace jitterOffset a0) ≠ representativePoint a0 ∨
  representativePoint (displace jitterOffset b0) ≠ representativePoint b0.
Proof.
  intros Hsame Hapart.
  destruct (decide (representativePoint (displace jitterOffset a0)
                    = representativePoint a0)) as [Ha|]; [|by left].
  right. intros Hb. apply Hapart. by rewrite Ha, Hb.
Qed.

Variable formatTime : Z → string.

Lemma apFeature_layer (a : AccessPointAggregate) :
  get (properties (apFeature formatTime a)) "layer" = JStr "access_points".
Proof. unfold get, apFeature. simpl. by rewrite lookup_insert_eq. Qed.

Lemma routeFeature_layer (r : RouteLine) :
  get (properties (routeFeature r)) "layer" = JStr "route".
Proof. unfold get, routeFeature. simpl. by rewrite lookup_insert_eq. Qed.

Lemma apFeature_mac (a : AccessPointAggregate) :
  get (properties (apFeature formatTime a)) "MAC" = JStr (ap_mac a).
Proof. unfold get, apFeature. simpl. by rewrite lookup_insert_ne. Qed.

Lemma filter_fmap_all {A B : Type} (f : A → B) (P : B → Prop)
    `{!∀ y, Decision (P y)} (l : list A) :
  (∀ x, P (f x)) → filter P (f <$> l) = f <$> l.
Proof.
  intros HP. induction l as [|x l IH]; [done|].
  rewrite fmap_cons, filter_cons, decide_True by done. by rewrite IH.
Qed.

Lemma filter_fmap_none {A B : Type} (f : A → B) (P : B → Prop)
    `{!∀ y, Decision (P y)} (l : list A) :
  (∀ x, ¬ P (f x)) → filter P (f <$> l) = [].
Proof.
  intros HP. induction l as [|x l IH]; [done|].
  rewrite fmap_cons, filter_cons, decide_False by done. by rewrite IH.
Qed.

Lemma addSources_emit (aggregates : list AccessPointAggregate)
    (routes : list RouteLine) (sessions : list SessionSummary) :
  addSources (emit formatTime aggregates routes sessions)
  = mkSources (apFeature formatTime <$> aggregates)
              (routeFeature <$> filter (λ r, path r ≠ []) routes).
Proof.
  unfold addSources, emit, accessPointFeatures, App.routeFeatures. simpl.
  rewrite !filter_app. f_equal.
  - rewrite filter_fmap_all by apply apFeature_layer.
    rewrite filter_fmap_none; [by rewrite app_nil_r|].
    intros r. by rewrite routeFeature_layer.
  - rewrite filter_fmap_none by (intros a; by rewrite apFeature_layer).
    by rewrite filter_fmap_all by apply routeFeature_layer.
Qed.

(** C2: in the emitted document the point features are those of the
    merged aggregates, no two of them have the same mac, and every
    observed mac has its aggregate; every aggregate has
    [firstSeen ≤ lastSeen], a non-empty set of session ids, and an
    [encounterCount] equal to the number of observations of its mac. *)
Theorem output_aggregates_invariant (obs : list Observation)
    (routes : list RouteLine) (sessions : list SessionSummary) :
  let aggregates := merge registry jitterOffset obs in
  let document := emit formatTime aggregates routes sessions in
  accessPointFeatures (features document) = apFeature formatTime <$> aggregates ∧
  NoDup (ap_mac <$> aggregates) ∧
  NoDup ((λ f, get (properties f) "MAC") <$> accessPointFeatures (features document)) ∧
  (∀ o, o ∈ obs → ∃ a, a ∈ aggregates ∧ ap_mac a = mac o) ∧
  (∀ a, a ∈ aggregates →
     firstSeen a ≤ lastSeen a ∧
     sessionIds a ≠ ∅ ∧
     encounterCount a = length (groupOf (ap_mac a) obs)).
Proof.
  simpl.
  assert (NoDup (ap_mac <$> merge registry jitterOffset obs)) as Hnodup.
  { rewrite merge_macs. apply NoDup_remove_dups. }
  pose proof (addSources_emit (merge registry jitterOffset obs)
                routes sessions) as Hsources.
  apply (f_equal wardrive) in Hsources. simpl in Hsources.
  split; [done|]. split; [done|]. split; [|split].
  - rewrite Hsources, <-list_fmap_compose.
    rewrite (list_fmap_ext _ (JStr ∘ ap_mac));
      [|intros i a _; apply apFeature_mac].
    rewrite list_fmap_compose.
    assert (Inj (=) (=) JStr) by (by intros s1 s2 [= ->]).
    by apply (NoDup_fmap_2 JStr).
  - intros o Ho.
    assert (mac o ∈ ap_mac <$> merge registry jitterOffset obs) as Hin.
    { rewrite merge_macs. unfold macsOf. rewrite elem_of_remove_dups.
      by apply list_elem_of_fmap_2. }
    apply list_elem_of_fmap in Hin as (a & -> & Ha). by exists a.
  - intros a (a0 & Ha0 & ->)%merge_elem.
    pose proof (jittered_fields (aggregateAll registry obs) a0)
      as (-> & _ & -> & -> & -> & ->).
    apply aggregateAll_elem in Ha0 as [_ Hagg].
    apply aggregate_Some in Hagg as (o & rest & _ & _ & _ & _ & Hle & Hne & Hcount).
    done.
Qed.



End PipelineFacts.

(** ** The small run, evaluated *)

Section SmallRun.
Import Samples.
Local Open Scope Z_scope.

Example sample_merge :
  aggregates = [homeAggregate; cafeAggregate; phoneAggregate].
Proof. vm_compute. reflexivity. Qed.

(** The second aggregate of the run is one the amended C1 speaks of. *)
Lemma merge_best_rssi_and_point_witness :
  cafeAggregate ∈ merge ∅ sampleOffset observations ∧
  ∃ o a0,
    a0 ∈ aggregateAll ∅ observations ∧
    o ∈ groupOf (ap_mac cafeAggregate) observations ∧
    (∀ o', o' ∈ groupOf (ap_mac cafeAggregate) observations → rssi o' ≤ rssi o) ∧
    bestRssi cafeAggregate = rssi o ∧
    representativePoint a0 = (lat o, lon o) ∧
    representativePoint cafeAggregate
    = if collides (aggregateAll ∅ observations) a0
      then addOffset (lat o, lon o) (sampleOffset (ap_mac cafeAggregate))
      else (lat o, lon o).
Proof.
  assert (cafeAggregate ∈ merge ∅ sampleOffset observations) as Hin.
  { vm_compute. right. left. }
  split; [exact Hin|].
  exact (merge_best_rssi_and_point ∅ sampleOffset observations cafeAggregate Hin).
Defined.

(** C1 as it is written fails on the run: the aggregate of the second
    access point shares its point with the first, so it is displaced,
    and its [representativePoint] is the point of none of the
    observations of its mac that attained its [bestRssi]. *)
Lemma merge_point_counterexample :
  cafeAggregate ∈ merge ∅ sampleOffset observations ∧
  ∀ o, o ∈ observations → mac o = ap_mac cafeAggregate →
       rssi o = bestRssi cafeAggregate →
       representativePoint cafeAggregate ≠ (lat o, lon o).
Proof.
  split; [vm_compute; right; left|].
  intros o Ho Hmac Hrssi. unfold observations in Ho.
  each_member Ho ltac:(by vm_compute).
Qed.


Lemma empty_auth_mode_is_open_witness :
  (get (properties cafeFeature) "AuthMode" = JStr "" ∨
   get (properties cafeFeature) "AuthMode" = JStr "OPEN") ∧
  (∀ (c : Counters) (f : Feature),
     properties f = properties cafeFeature →
     security <$> processFeature integerToNumber c f
     = Some (incr_open (security c))) ∧
  (∀ (l : Layer) (f : Feature),
     l ∈ initLayers → id l = "points-open-glow" ∨ id l = "points-open" →
     properties f = properties cafeFeature → passesFilter l f = true) ∧
  eval (properties cafeFeature) securityColor = JStr "#ef4444" ∧
  secColor (properties cafeFeature) = Some "#ef4444" ∧
  (get (properties cafeFeature) "AuthMode" = JStr "" →
   securityLabel (properties cafeFeature) = "Open") ∧
  (get (properties cafeFeature) "AuthMode" = JStr "OPEN" →
   securityLabel (properties cafeFeature) = "OPEN").
Proof.
  assert (get (properties cafeFeature) "AuthMode" = JStr "" ∨
          get (properties cafeFeature) "AuthMode" = JStr "OPEN") as Hauth.
  { left. reflexivity. }
  split; [exact Hauth|].
  exact (empty_auth_mode_is_open integerToNumber (properties cafeFeature) Hauth).
Defined.

Lemma zero_rssi_is_filtered_out_witness :
  (get (properties cafeFeature) "best_rssi" = JUndefined ∨
   get (properties cafeFeature) "best_rssi" = JNum 0) ∧
  signalOf (properties cafeFeature) = JNum (-100) ∧
  ∀ (c : Controls) (t : Z),
    rssiVal c = Num t → -100 < t →
    (∀ searchText,
       keepFeature integerToNumber searchText (selectedSession c) (rssiVal c)
         (activeVendorFilter c) cafeFeature = Some false) ∧
    (∀ fs out, updateMapFilters integerToNumber c fs = Some out → cafeFeature ∉ out).
Proof.
  assert (get (properties cafeFeature) "best_rssi" = JUndefined ∨
          get (properties cafeFeature) "best_rssi" = JNum 0) as Hrssi.
  { right. reflexivity. }
  split; [exact Hrssi|].
  exact (zero_rssi_is_filtered_out integerToNumber cafeFeature Hrssi).
Defined.



Lemma output_aggregates_invariant_witness :
  cafeAggregate ∈ merge ∅ sampleOffset observations ∧
  firstSeen cafeAggregate ≤ lastSeen cafeAggregate ∧
  sessionIds cafeAggregate ≠ ∅ ∧
  encounterCount cafeAggregate = length (groupOf (ap_mac cafeAggregate) observations).
Proof.
  assert (cafeAggregate ∈ merge ∅ sampleOffset observations) as Hin.
  { vm_compute. right. left. }
  split; [exact Hin|].
  pose proof (output_aggregates_invariant ∅ sampleOffset pretty observations
                routeLines summaries) as Hinv.
  destruct Hinv as (_ & _ & _ & _ & Hagg).
  exact (Hagg cafeAggregate Hin).
Defined.



(** The statistics page on the document of the run: four features, the
    route among them; the second access point, on channel 36, is in no
    bucket of the chart. *)
Example sample_stats :
  ∃ v : StatsView,
    updateStatsPage integerToNumber (features document) = Rendered v ∧
    totalWifi v = 4%nat ∧
    security (counters v) = mkSecurity 1 1 0 2 ∧
    channelCounts (counters v) !! 6 = Some 1%nat ∧
    channelCounts (counters v) !! 11 = Some 1%nat ∧
    channelCounts (counters v) !! 36 = None ∧
    map_fold (λ _ n total, (n + total)%nat) 0%nat (channelCounts (counters v)) = 2%nat.
Proof. eexists. split; [reflexivity|]. vm_compute. done. Qed.

(** The map page on the document of the run, with the slider at
    -90 dBm: the second access point, whose [best_rssi] is 0, is
    dropped. *)
Example sample_filter :
  updateMapFilters integerToNumber controls (wardrive (addSources document))
  = Some [apFeature pretty homeAggregate; apFeature pretty phoneAggregate].
Proof. vm_compute. reflexivity. Qed.

End SmallRun.

(** * Further properties

    Properties of the code of both pages beyond the claims above: the
    counting objects and the tables and charts built from them, the
    outcomes and the exceptions of both pages, the filters of the map
    and the state behind its buttons. *)

(** ** Objects built key by key *)

Section ObjFacts.
Import Obj.
Context {V : Type}.
Implicit Types (o : list (string * V)) (k : string) (v : V).

Lemma property_assign_eq o k v : property (assign o k v) k = Some v.
Proof.
  induction o as [|[k' v'] o IH]; simpl.
  - by rewrite String.eqb_refl.
  - destruct (String.eqb k' k) eqn:Hk; simpl.
    + by rewrite String.eqb_refl.
    + by rewrite Hk.
Qed.

Lemma property_assign_ne o k k' v :
  k ≠ k' → property (assign o k v) k' = property o k'.
Proof.
  intros Hne. induction o as [|[k0 v0] o IH]; simpl.
  - by apply String.eqb_neq in Hne as ->.
  - destruct (String.eqb k0 k) eqn:Hk; simpl.
    + apply String.eqb_eq in Hk as ->.
      by apply String.eqb_neq in Hne as ->.
    + by rewrite IH.
Qed.

Lemma property_None o k : property o k = None ↔ k ∉ o.*1.
Proof.
  induction o as [|[k0 v0] o IH]; simpl.
  - split; [intros _; apply not_elem_of_nil | done].
  - rewrite not_elem_of_cons. destruct (String.eqb k0 k) eqn:Hk.
    + apply String.eqb_eq in Hk as ->. split; [done | by intros [? _]].
    + apply String.eqb_neq in Hk. rewrite IH.
      split; [by intros ?; split; [intros ->|] | by intros [_ ?]].
Qed.

Lemma property_elem_of o k v : property o k = Some v → (k, v) ∈ o.
Proof.
  induction o as [|[k0 v0] o IH]; simpl; [done|].
  destruct (String.eqb k0 k) eqn:Hk.
  - apply String.eqb_eq in Hk as ->. intros [= ->]. left.
  - intros ?. right. by apply IH.
Qed.

Lemma elem_of_property o k v : NoDup o.*1 → (k, v) ∈ o → property o k = Some v.
Proof.
  induction o as [|[k0 v0] o IH]; simpl; intros Hnd Hin.
  - by apply elem_of_nil in Hin.
  - apply NoDup_cons in Hnd as [Hk0 Hnd].
    apply elem_of_cons in Hin as [[= -> ->]|Hin].
    + by rewrite String.eqb_refl.
    + destruct (String.eqb k0 k) eqn:Hk.
      * apply String.eqb_eq in Hk as ->. destruct Hk0.
        apply list_elem_of_fmap. by exists (k, v).
      * by apply IH.
Qed.

Lemma assign_keys o k v :
  (assign o k v).*1 = if property o k is Some _ then o.*1 else o.*1 ++ [k].
Proof.
  induction o as [|[k0 v0] o IH]; simpl; [done|].
  destruct (String.eqb k0 k) eqn:Hk; simpl.
  - by apply String.eqb_eq in Hk as ->.
  - destruct (property o k); simpl; f_equal; exact IH.
Qed.

Lemma assign_NoDup o k v : NoDup o.*1 → NoDup (assign o k v).*1.
Proof.
  intros Hnd. rewrite assign_keys.
  destruct (property o k) eqn:Hp; [done|].
  apply NoDup_app. split_and!; [done| |apply NoDup_singleton].
  intros x Hx ->%list_elem_of_singleton. by apply property_None in Hp.
Qed.

End ObjFacts.

Section SortFacts.
Import Obj.
Context {A : Type} (before : A → A → bool).

Lemma insertBy_perm (x : A) (l : list A) : insertBy before x l ≡ₚ x :: l.
Proof.
  induction l as [|y l IH]; simpl; [done|].
  destruct (before x y); [done|]. rewrite IH. apply perm_swap.
Qed.

Lemma sortBy_perm (l : list A) : sortBy before l ≡ₚ l.
Proof.
  induction l as [|x l IH]; simpl; [done|].
  etrans; [apply insertBy_perm|]. by apply perm_skip.
Qed.

Hypothesis before_total : ∀ a b, before a b = false → before b a = true.
Hypothesis before_trans :
  ∀ a b c, before a b = true → before b c = true → before a c = true.

Lemma insertBy_sorted (x : A) (l : list A) :
  StronglySorted (λ a b, before a b = true) l →
  StronglySorted (λ a b, before a b = true) (insertBy before x l).
Proof.
  induction 1 as [|y l Hl IH Hy]; simpl.
  - repeat constructor.
  - destruct (before x y) eqn:Hxy.
    + constructor; [by constructor|].
      constructor; [done|].
      eapply Forall_impl; [exact Hy|]. intros z Hz. by eapply before_trans.
    + constructor; [done|].
      rewrite insertBy_perm. constructor; [by apply before_total | done].
Qed.

Lemma sortBy_sorted (l : list A) :
  StronglySorted (λ a b, before a b = true) (sortBy before l).
Proof.
  induction l as [|x l IH]; simpl; [constructor|]. by apply insertBy_sorted.
Qed.

End SortFacts.

Section EntriesFacts.
Import Obj.
Context {V : Type}.

Lemma ownEntries_perm (o : list (string * V)) : ownEntries o ≡ₚ o.
Proof.
  unfold ownEntries. rewrite sortBy_perm.
  induction o as [|e o IH]; simpl; [done|].
  rewrite filter_cons.
  destruct (decide (arrayIndex e.1 = None)) as [Hn|Hn].
  - rewrite Hn. simpl. rewrite <- Permutation_middle. by apply perm_skip.
  - destruct (arrayIndex e.1) as [n|]; [|done]. simpl. by apply perm_skip.
Qed.

Lemma tally_property {A : Type} (key : A → string) (l : list A)
    (o : list (string * nat)) (k : string) :
  property (foldl (λ o f, count o (key f)) o l) k
  = if bool_decide (length (filter (λ f, key f = k) l) = 0%nat)
    then property o k
    else Some (default 0%nat (property o k) + length (filter (λ f, key f = k) l))%nat.
Proof.
  revert o. induction l as [|f l IH]; intros o; simpl; [done|].
  rewrite IH. clear IH. unfold count. rewrite filter_cons.
  destruct (decide (key f = k)) as [->|Hne].
  - rewrite property_assign_eq. simpl.
    case_bool_decide as Hz; f_equal; lia.
  - by rewrite property_assign_ne.
Qed.

Lemma tally_NoDup {A : Type} (key : A → string) (l : list A)
    (o : list (string * nat)) :
  NoDup o.*1 → NoDup (foldl (λ o f, count o (key f)) o l).*1.
Proof.
  revert o. induction l as [|f l IH]; intros o Hnd; simpl; [done|].
  apply IH. by apply assign_NoDup.
Qed.

End EntriesFacts.

Section RankingFacts.
Import Obj.

Lemma byCount_total (a b : string * nat) : byCount a b = false → byCount b a = true.
Proof. unfold byCount. intros H%Nat.leb_gt. apply Nat.leb_le. lia. Qed.

Lemma byCount_trans (a b c : string * nat) :
  byCount a b = true → byCount b c = true → byCount a c = true.
Proof.
  unfold byCount. intros H1%Nat.leb_le H2%Nat.leb_le. apply Nat.leb_le. lia.
Qed.

Lemma StronglySorted_weaken {A : Type} (R R' : A → A → Prop) (l : list A) :
  (∀ a b, R a b → R' a b) → StronglySorted R l → StronglySorted R' l.
Proof.
  intros HR. induction 1 as [|x l Hl IH Hx]; constructor; [done|].
  eapply Forall_impl; [exact Hx|]. intros y. apply HR.
Qed.

(** The [n] first entries of a list of counts sorted by count. *)
Lemma ranking (n : nat) (es : list (string * nat)) :
  NoDup es.*1 →
  let top := take n (sortBy byCount es) in
  length top = (n `min` length es)%nat ∧
  NoDup top.*1 ∧
  (∀ e, e ∈ top → e ∈ es) ∧
  StronglySorted (λ a b, snd b ≤ snd a)%nat top ∧
  (∀ e e', e ∈ es → e.1 ∉ top.*1 → e' ∈ top → (snd e ≤ snd e')%nat).
Proof.
  intros Hnd top.
  pose proof (sortBy_perm byCount es) as Hperm.
  pose proof (sortBy_sorted byCount byCount_total byCount_trans es) as Hsorted.
  assert (sortBy byCount es = top ++ drop n (sortBy byCount es)) as Hsplit
    by (symmetry; apply take_drop).
  split_and!.
  - unfold top. by rewrite length_take, Hperm.
  - apply (NoDup_fmap_fst top); [|].
    + intros k v1 v2 H1 H2.
      assert (NoDup (sortBy byCount es).*1) as Hnd' by (by rewrite Hperm).
      assert ((k, v1) ∈ sortBy byCount es) as H1'
        by (rewrite Hsplit; apply elem_of_app; by left).
      assert ((k, v2) ∈ sortBy byCount es) as H2'
        by (rewrite Hsplit; apply elem_of_app; by left).
      apply (elem_of_property _ _ _ Hnd') in H1'.
      apply (elem_of_property _ _ _ Hnd') in H2'. congruence.
    + assert (NoDup (sortBy byCount es)) as Hnd'.
      { apply (NoDup_fmap_1 fst). by rewrite Hperm. }
      rewrite Hsplit in Hnd'. by apply NoDup_app in Hnd' as [? _].
  - intros e He. rewrite <- Hperm, Hsplit. apply elem_of_app. by left.
  - rewrite Hsplit in Hsorted. apply StronglySorted_app_1_l in Hsorted.
    eapply StronglySorted_weaken; [|exact Hsorted].
    intros a b Hab. by apply Nat.leb_le.
  - intros e e' He Hout He'.
    assert (e ∈ drop n (sortBy byCount es)) as Hdrop.
    { rewrite <- Hperm, Hsplit in He. apply elem_of_app in He as [He|He]; [|done].
      destruct Hout. apply list_elem_of_fmap. by exists e. }
    rewrite Hsplit in Hsorted.
    apply Nat.leb_le.
    by apply (StronglySorted_app_1_elem_of _ _ _ e' e Hsorted).
Qed.


Lemma count_positive {A : Type} (key : A → string) (k : string) (l : list A) :
  length (filter (λ f, key f = k) l) ≠ 0%nat ↔ k ∈ key <$> l.
Proof.
  rewrite list_elem_of_fmap. split.
  - intros Hlen. destruct (filter (λ f, key f = k) l) as [|f r] eqn:Hf; [done|].
    assert (f ∈ filter (λ f, key f = k) l) as Hin by (rewrite Hf; left).
    apply list_elem_of_filter in Hin as [Hk Hin]. by exists f.
  - intros (f & -> & Hin) Hlen.
    assert (f ∈ filter (λ g, key g = key f) l) as Hin'
      by (by apply list_elem_of_filter).
    destruct (filter (λ g, key g = key f) l); [by apply elem_of_nil in Hin' | done].
Qed.

Lemma tally_keys {A : Type} (key : A → string) (l : list A) :
  (foldl (λ o f, count o (key f)) [] l).*1 ≡ₚ remove_dups (key <$> l).
Proof.
  apply NoDup_Permutation.
  - apply tally_NoDup. constructor.
  - apply NoDup_remove_dups.
  - intros k. rewrite elem_of_remove_dups, <- (count_positive key k l).
    pose proof (tally_property key l [] k) as Hp. simpl in Hp.
    destruct (decide (k ∈ (foldl (λ o f, count o (key f)) [] l).*1)) as [Hin|Hout].
    + split; [|by intros _]. intros _ Hz.
      rewrite bool_decide_eq_true_2 in Hp by done.
      by apply property_None in Hp.
    + split; [by intros ?|]. intros Hnz. apply property_None in Hout.
      rewrite bool_decide_eq_false_2 in Hp by done. congruence.
Qed.

Lemma tally_elem_of {A : Type} (key : A → string) (l : list A) (k : string) (n : nat) :
  (k, n) ∈ foldl (λ o f, count o (key f)) [] l ↔
  n = length (filter (λ f, key f = k) l) ∧ n ≠ 0%nat.
Proof.
  pose proof (tally_property key l [] k) as Hp. simpl in Hp.
  pose proof (tally_NoDup key l [] (NoDup_nil_2)) as Hnd.
  split.
  - intros Hin. apply (elem_of_property _ _ _ Hnd) in Hin.
    rewrite Hin in Hp. case_bool_decide; [done|]. injection Hp as ->. done.
  - intros [-> Hnz]. apply property_elem_of.
    by rewrite Hp, bool_decide_eq_false_2.
Qed.



Lemma filter_length_le {A : Type} (P Q : A → Prop)
    `{∀ x, Decision (P x)} `{∀ x, Decision (Q x)} (l : list A) :
  (∀ x, x ∈ l → P x → Q x) → (length (filter P l) ≤ length (filter Q l))%nat.
Proof.
  induction l as [|x l IH]; intros Himp; [done|].
  assert (length (filter P l) ≤ length (filter Q l))%nat as Hle.
  { apply IH. intros y Hy. apply Himp. by right. }
  rewrite !filter_cons. destruct (decide (P x)) as [Hp|Hp].
  - rewrite decide_True by (apply Himp; [left | done]). simpl. lia.
  - destruct (decide (Q x)); simpl; lia.
Qed.

Lemma filter_length_eq {A : Type} (P Q : A → Prop)
    `{∀ x, Decision (P x)} `{∀ x, Decision (Q x)} (l : list A) :
  (∀ x, x ∈ l → P x ↔ Q x) → length (filter P l) = length (filter Q l).
Proof.
  intros Hiff. apply Nat.le_antisymm; apply filter_length_le; intros x Hx; by apply Hiff.
Qed.

End RankingFacts.

(** ** The statistics page: outcomes, counters and charts *)

Section OutcomeFacts.
Import Obj Dashboard.
Variable StringToNumber : string → JsNum.
Local Open Scope Z_scope.





Lemma forEach_rssiRanges (l : list Feature) (c c' : Counters) :
  forEach (processFeature StringToNumber) c l = Some c' →
  let level (t : Z) (f : Feature) :=
    ge_number StringToNumber (rssiOf (properties f)) (Num t) in
  excellent (rssiRanges c')
  = (excellent (rssiRanges c) + length (filter (λ f, level (-60)%Z f = true) l))%nat ∧
  good (rssiRanges c')
  = (good (rssiRanges c)
     + length (filter (λ f, level (-60)%Z f = false ∧ level (-70)%Z f = true) l))%nat ∧
  fair (rssiRanges c')
  = (fair (rssiRanges c)
     + length (filter (λ f, level (-70)%Z f = false ∧ level (-80)%Z f = true) l))%nat ∧
  weak (rssiRanges c')
  = (weak (rssiRanges c)
     + length (filter (λ f, level (-80)%Z f = false ∧ level (-90)%Z f = true) l))%nat ∧
  poor (rssiRanges c')
  = (poor (rssiRanges c) + length (filter (λ f, level (-90)%Z f = false) l))%nat.
Proof.
  intros Hrun level. revert c Hrun.
  induction l as [|f l IH]; intros c Hrun; simpl in Hrun.
  - injection Hrun as <-. simpl. lia.
  - destruct (processFeature StringToNumber c f) as [c1|] eqn:Hf; simpl in Hrun; [|done].
    apply processFeature_Some in Hf as (auth & _ & ->).
    destruct (IH _ Hrun) as (He & Hg & Hfa & Hw & Hp). clear IH.
    rewrite He, Hg, Hfa, Hw, Hp. clear He Hg Hfa Hw Hp.
    rewrite !filter_cons. simpl. unfold classifySignal, level, ge_number.
    destruct (ToNumber StringToNumber (rssiOf (properties f))) as [|n]; simpl;
      [lia|].
    destruct (Z.leb_spec (-60) n); destruct (Z.leb_spec (-70) n);
      destruct (Z.leb_spec (-80) n); destruct (Z.leb_spec (-90) n);
      try lia; simpl; lia.
Qed.

(** X2: the five signal counters of a rendered page count the
    features by [best_rssi || -100] against the thresholds -60, -70,
    -80 and -90: excellent from -60 up, good from -70, fair from -80,
    weak from -90, poor below -90 or when the value is no number.  A
    numeric [best_rssi] other than 0 is compared as it is; an absent
    one and 0 read as -100 and are counted as poor; so is a text that
    converts to no number. *)
Theorem signal_strength_buckets (fs : list Feature) (v : StatsView) :
  updateStatsPage StringToNumber fs = Rendered v →
  let r := rssiRanges (counters v) in
  let level (t : Z) (f : Feature) :=
    ge_number StringToNumber (rssiOf (properties f)) (Num t) in
  excellent r = length (filter (λ f, level (-60) f = true) fs) ∧
  good r = length (filter (λ f, level (-60) f = false ∧ level (-70) f = true) fs) ∧
  fair r = length (filter (λ f, level (-70) f = false ∧ level (-80) f = true) fs) ∧
  weak r = length (filter (λ f, level (-80) f = false ∧ level (-90) f = true) fs) ∧
  poor r = length (filter (λ f, level (-90) f = false) fs) ∧
  (∀ f n t, get (properties f) "best_rssi" = JNum n → n ≠ 0 →
     level t f = bool_decide (t ≤ n)) ∧
  (∀ f t, get (properties f) "best_rssi" = JUndefined ∨
          get (properties f) "best_rssi" = JNum 0 →
     level t f = bool_decide (t ≤ -100)) ∧
  (∀ f s t, get (properties f) "best_rssi" = JStr s → s ≠ "" →
     StringToNumber s = NaN → level t f = false).
Proof.
  intros (_ & cs & Hrun & ->)%updateStatsPage_Rendered r level.
  destruct (forEach_rssiRanges _ _ _ Hrun) as (He & Hg & Hf & Hw & Hp).
  unfold r. simpl. split_and!; try done.
  - intros f n t Hn Hnz. unfold level, ge_number, rssiOf, js_or. rewrite Hn. simpl.
    apply Z.eqb_neq in Hnz as ->. simpl.
    destruct (Z.leb_spec t n);
      [rewrite bool_decide_eq_true_2 | rewrite bool_decide_eq_false_2]; done || lia.
  - intros f t [Hn|Hn]; unfold level, ge_number, rssiOf, js_or; rewrite Hn; simpl;
      (destruct (Z.leb_spec t (-100));
       [rewrite bool_decide_eq_true_2 | rewrite bool_decide_eq_false_2]; done || lia).
  - intros f s t Hs Hne Hnan. unfold level, ge_number, rssiOf, js_or. rewrite Hs. simpl.
    apply String.eqb_neq in Hne as ->. simpl. by rewrite Hnan.
Qed.

(** X3: the statistics page counts every feature of the document,
    not only the access points.  The total of a rendered page is the
    number of features the map page keeps in [allFeatures] plus the
    number of all others, route lines among them; and a feature with
    none of [AuthMode], [best_rssi] and [Channel] is counted as an open
    network of poor signal on no channel, and one with neither [Vendor]
    nor [SSID] under the vendor ["Unknown"] and the hidden name. *)
Theorem statistics_count_every_feature :
  (∀ (fs : list Feature) (v : StatsView),
     updateStatsPage StringToNumber fs = Rendered v →
     totalWifi v
     = (length (accessPointFeatures fs)
        + length (filter (λ f, get (properties f) "layer" ≠ JStr "access_points") fs))%nat) ∧
  (∀ (c : Counters) (f : Feature),
     get (properties f) "AuthMode" = JUndefined →
     get (properties f) "best_rssi" = JUndefined →
     get (properties f) "Channel" = JUndefined →
     processFeature StringToNumber c f
     = Some (mkCounters (incr_open (security c)) (channelCounts c)
               (mkRssiRanges (excellent (rssiRanges c)) (good (rssiRanges c))
                  (fair (rssiRanges c)) (weak (rssiRanges c))
                  (S (poor (rssiRanges c)))))) ∧
  (∀ f : Feature,
     get (properties f) "Vendor" = JUndefined →
     get (properties f) "SSID" = JUndefined →
     vendorKey f = "Unknown" ∧ ssidKey f = "").
Proof.
  split_and!.
  - intros fs v (_ & cs & Hrun & ->)%updateStatsPage_Rendered. simpl.
    unfold accessPointFeatures. clear Hrun.
    induction fs as [|f fs IH]; [done|].
    rewrite !filter_cons. simpl.
    destruct (decide (get (properties f) "layer" = JStr "access_points")) as [Hl|Hl].
    + rewrite decide_False by (by intros ?). simpl. lia.
    + rewrite decide_True by done. simpl. lia.
  - intros c f Ha Hr Hc. unfold processFeature, authOf, rssiOf, channelOf, js_or.
    rewrite Ha, Hr, Hc. simpl. done.
  - intros f Hv Hs. unfold vendorKey, ssidKey, js_or. by rewrite Hv, Hs.
Qed.

End OutcomeFacts.

Section ChartFacts.
Import Obj Dashboard.
Variable StringToNumber : string → JsNum.

#[local] Instance Zleb_antisym : AntiSymm (=) (λ a b : Z, (a <=? b)%Z = true).
Proof. intros a b H1%Z.leb_le H2%Z.leb_le. lia. Qed.




End ChartFacts.

Section RankedTables.
Import Obj Dashboard.



(** The ordered [vendorCounts] holds what the map of the same name of
    the rendered page holds. *)
Lemma orderedVendorCounts_property (fs : list Feature) (k : string) :
  property (orderedVendorCounts fs) k = foldl countVendor ∅ fs !! k.
Proof.
  unfold orderedVendorCounts. rewrite tally_property, foldl_countVendor_lookup.
  by rewrite lookup_empty.
Qed.









End RankedTables.

(** ** The map page: the filters *)

Section FilterLoops.
Context {A : Type}.

Lemma filterM_ext (keep keep' : A → option bool) (l : list A) :
  (∀ x, x ∈ l → keep x = keep' x) → filterM keep l = filterM keep' l.
Proof.
  induction l as [|x l IH]; intros Hext; simpl; [done|].
  rewrite (Hext x) by left. rewrite IH; [done|].
  intros y Hy. apply Hext. by right.
Qed.

Lemma filterM_guard (keep : A → option bool) (guard : A → bool) (l r : list A) :
  filterM keep l = Some r →
  filterM (λ x, if guard x then Some false else keep x) l
  = Some (filter (λ x, guard x = false) r).
Proof.
  revert r. induction l as [|x l IH]; intros r Hrun; simpl in *.
  - by injection Hrun as <-.
  - destruct (keep x) as [b|] eqn:Hx; simpl in Hrun; [|done].
    destruct (filterM keep l) as [r0|]; simpl in Hrun; [|done].
    injection Hrun as <-. rewrite (IH r0 eq_refl).
    destruct (guard x) eqn:Hg; simpl.
    + destruct b; [|done]. by rewrite filter_cons, Hg, decide_False.
    + destruct b; [|done].
      by rewrite filter_cons, Hg, decide_True.
Qed.


Lemma filterM_pure (keep : A → bool) (l : list A) :
  filterM (λ x, Some (keep x)) l = Some (filter (λ x, keep x = true) l).
Proof.
  induction l as [|x l IH]; simpl; [done|]. rewrite IH. simpl.
  rewrite filter_cons. by destruct (keep x).
Qed.

End FilterLoops.

Section FilterFacts.
Variable StringToNumber : string → JsNum.
Local Open Scope Z_scope.




Lemma keepFeature_threshold (searchText selected : string) (t1 t2 : Z)
    (active : option string) (f : Feature) :
  t1 ≤ t2 →
  keepFeature StringToNumber searchText selected (Num t2) active f
  = if lt_number StringToNumber (signalOf (properties f)) (Num t2) then Some false
    else keepFeature StringToNumber searchText selected (Num t1) active f.
Proof.
  intros Hle. unfold keepFeature, lt_number.
  destruct (ToNumber StringToNumber (signalOf (properties f))) as [|n]; simpl; [done|].
  destruct (Z.ltb_spec n t2); [done|].
  destruct (Z.ltb_spec n t1); [lia | done].
Qed.

(** X7: raising the signal slider only removes features.  When the
    filter succeeds at one threshold it succeeds at every higher one
    (no new exception), and what it hands to the map is what it handed
    before without the features whose signal is below the new
    threshold, in the same order, itself a part of [allFeatures] in its
    order. *)
Theorem raising_the_signal_threshold_only_removes
    (c : Controls) (s1 s2 : string) (t1 t2 : Z) (fs out1 : list Feature) :
  parseInt_string s1 = Num t1 → parseInt_string s2 = Num t2 → t1 ≤ t2 →
  updateMapFilters StringToNumber
    (mkControls (global_search c) (session_filter c) (Some s1) (activeVendorFilter c))
    fs = Some out1 →
  ∃ out2,
    updateMapFilters StringToNumber
      (mkControls (global_search c) (session_filter c) (Some s2) (activeVendorFilter c))
      fs = Some out2 ∧
    out2 `sublist_of` out1 ∧ out1 `sublist_of` fs ∧
    ∀ f, f ∈ out2 ↔
      f ∈ out1 ∧ lt_number StringToNumber (signalOf (properties f)) (Num t2) = false.
Proof.
  intros Ht1 Ht2 Hle. unfold updateMapFilters, rssiVal, selectedSession. simpl.
  rewrite Ht1, Ht2.
  destruct (global_search c) as [text|]; simpl; [|done].
  intros Hrun. eexists. split_and!.
  - erewrite filterM_ext; [by apply filterM_guard|].
    intros f _. by apply keepFeature_threshold.
  - apply sublist_filter.
  - apply filterM_Some in Hrun as [_ ->]. apply sublist_filter.
  - intros f. rewrite list_elem_of_filter. tauto.
Qed.







(** With no search text and every session selected the callback reads
    nothing a feature may lack. *)
Lemma updateMapFilters_plain (c : Controls) (fs : list Feature) :
  global_search c = Some "" → selectedSession c = "all" →
  updateMapFilters StringToNumber c fs
  = Some (filter (λ f,
            lt_number StringToNumber (signalOf (properties f)) (rssiVal c) = false ∧
            vendorFilter (activeVendorFilter c) (properties f) = true) fs).
Proof.
  intros Htext Hall. unfold updateMapFilters. rewrite Htext, Hall. simpl.
  rewrite (filterM_ext _
    (λ f, Some (negb (lt_number StringToNumber (signalOf (properties f)) (rssiVal c))
                && vendorFilter (activeVendorFilter c) (properties f)))).
  - rewrite filterM_pure. f_equal. apply list_filter_iff. intros f.
    rewrite andb_true_iff, negb_true_iff. done.
  - intros f _. unfold keepFeature.
    destruct (lt_number _ _ _); simpl; [done|].
    by destruct (vendorFilter _ _).
Qed.

End FilterFacts.

(** ** The map page: the vendor chips *)

Section ChipFacts.
Import Obj Chips.
Variable StringToNumber : string → JsNum.

Lemma named_keys {V : Type} (es : list (string * V)) :
  (filter (λ e, fst e ≠ "Randomized" ∧ fst e ≠ "Unknown") es).*1
  = filter (λ k, k ≠ "Randomized" ∧ k ≠ "Unknown") es.*1.
Proof.
  induction es as [|e es IH]; [done|].
  rewrite fmap_cons, !filter_cons.
  destruct (decide (e.1 ≠ "Randomized" ∧ e.1 ≠ "Unknown")); [rewrite fmap_cons|];
    by rewrite IH.
Qed.

Lemma vendorKey_not_empty (f : Feature) : vendorKey f ≠ "".
Proof.
  unfold vendorKey, js_or.
  destruct (get (properties f) "Vendor") as [| |[]|n|s] eqn:Hv; simpl; try done.
  - destruct (n =? 0)%Z eqn:Hn; simpl; [done|].
    intros Hempty. pose proof (parseInt_JNum n) as Hparse.
    unfold parseInt in Hparse. simpl in Hparse. by rewrite Hempty in Hparse.
  - destruct (String.eqb s "") eqn:Hs; simpl; [done|]. by apply String.eqb_neq.
Qed.

Lemma chip_entries (fs : list Feature) :
  let named (k : string) := k ≠ "Randomized" ∧ k ≠ "Unknown" in
  let es := filter (λ e : string * nat, named e.1) (ownEntries (counts fs)) in
  es.*1 ≡ₚ filter named (remove_dups (vendorKey <$> fs)) ∧
  NoDup es.*1 ∧
  ∀ k n, (k, n) ∈ es ↔ named k ∧ n = vendorCount k fs ∧ n ≠ 0%nat.
Proof.
  intros named es.
  assert (es.*1 ≡ₚ filter named (remove_dups (vendorKey <$> fs))) as Hkeys.
  { unfold es, named. rewrite named_keys, ownEntries_perm. unfold counts.
    by rewrite tally_keys. }
  split_and!; [done| |].
  - rewrite Hkeys. apply NoDup_filter, NoDup_remove_dups.
  - intros k n. unfold es. rewrite list_elem_of_filter, ownEntries_perm.
    unfold counts. rewrite tally_elem_of. done.
Qed.

Lemma chip_elem_of (fs : list Feature) (name : string) (n : nat) :
  (name, n) ∈ buildVendorChips fs →
  name ≠ "Randomized" ∧ name ≠ "Unknown" ∧ name ≠ "" ∧
  n = vendorCount name fs ∧ n ≠ 0%nat.
Proof.
  destruct (chip_entries fs) as (_ & Hnd & Hes).
  destruct (ranking 5 _ Hnd) as (_ & _ & Hsub & _).
  intros Hin%Hsub%Hes. destruct Hin as ([? ?] & -> & Hnz).
  split_and!; [done|done| |done|done].
  intros ->. apply Hnz. unfold vendorCount.
  destruct (filter (λ f, vendorKey f = "") fs) as [|f r] eqn:Hf; [done|].
  assert (f ∈ filter (λ f, vendorKey f = "") fs) as Hin by (rewrite Hf; left).
  apply list_elem_of_filter in Hin as [Hk _]. by apply vendorKey_not_empty in Hk.
Qed.

(** X11: the chips are the five largest vendors with a name.  There
    is one chip for each vendor met other than ["Randomized"] and
    ["Unknown"], five at most, no vendor twice; a chip never carries one
    of these two names nor the empty one; its count is the number of
    features of its vendor; the chips come largest first, and a named
    vendor without chip has no more features than any vendor with
    one. *)
Theorem vendor_chips_are_the_five_largest_named_vendors (fs : list Feature) :
  Forall (λ f, ownKey (vendorKey f)) fs →
  let named (k : string) := k ≠ "Randomized" ∧ k ≠ "Unknown" in
  let chips := buildVendorChips fs in
  length chips
  = (5 `min` length (filter named (remove_dups (vendorKey <$> fs))))%nat ∧
  NoDup chips.*1 ∧
  (∀ name n, (name, n) ∈ chips →
     named name ∧ name ≠ "" ∧ n = vendorCount name fs ∧ (0 < n)%nat) ∧
  StronglySorted (λ a b, b ≤ a)%nat chips.*2 ∧
  (∀ f n, f ∈ fs → named (vendorKey f) → vendorKey f ∉ chips.*1 → n ∈ chips.*2 →
     (vendorCount (vendorKey f) fs ≤ n)%nat).
Proof.
  intros _ named chips.
  destruct (chip_entries fs) as (Hkeys & Hnd & Hes).
  destruct (ranking 5 _ Hnd) as (Hlen & Htopnd & Hsub & Hsorted & Hrest).
  split_and!.
  - unfold chips, buildVendorChips, top. rewrite Hlen. f_equal.
    by rewrite <- (length_fmap fst), Hkeys.
  - exact Htopnd.
  - intros name n (? & ? & ? & ? & ?)%chip_elem_of.
    split; [by split|]. split; [done|]. split; [done | lia].
  - by apply (StronglySorted_fmap snd (λ a b, snd b ≤ snd a)%nat).
  - intros f n Hf Hnamed Hout Hn.
    apply list_elem_of_fmap in Hn as (e' & -> & He').
    apply (Hrest (vendorKey f, vendorCount (vendorKey f) fs) e'); [|done|done].
    apply Hes. split; [exact Hnamed|]. split; [done|].
    apply (count_positive vendorKey), list_elem_of_fmap. by exists f.
Qed.

(** X12: a click on a chip shows the features of its vendor.  With
    an empty search box and every session selected, pressing a chip
    that is not pressed makes the filter succeed and hand to the map
    exactly the features whose [Vendor] is the name of the chip and
    whose signal is not below the threshold: never more than the count
    on the chip, and exactly that many when no feature is below the
    threshold and every [Vendor] is a string or falsy.  Pressing the
    chip again clears the vendor filter. *)
Theorem clicking_a_chip_shows_its_vendor
    (fs : list Feature) (name : string) (n : nat) (c : Controls) :
  Forall (λ f, ownKey (vendorKey f)) fs →
  (name, n) ∈ buildVendorChips fs →
  global_search c = Some "" → selectedSession c = "all" →
  activeVendorFilter c ≠ Some name →
  ∃ out,
    updateMapFilters StringToNumber (clickChip name c) fs = Some out ∧
    (∀ f, f ∈ out ↔
       f ∈ fs ∧ get (properties f) "Vendor" = JStr name ∧
       lt_number StringToNumber (signalOf (properties f)) (rssiVal c) = false) ∧
    (length out ≤ n)%nat ∧
    ((∀ f, f ∈ fs →
        lt_number StringToNumber (signalOf (properties f)) (rssiVal c) = false ∧
        (truthy (get (properties f) "Vendor") = false ∨
         ∃ s, get (properties f) "Vendor" = JStr s)) →
     length out = n) ∧
    activeVendorFilter (clickChip name (clickChip name c)) = None.
Proof.
  intros _ (_ & Hunknown & Hname & -> & _)%chip_elem_of Htext Hall Hactive.
  assert (activeVendorFilter (clickChip name c) = Some name) as Hon.
  { unfold clickChip. simpl. by rewrite bool_decide_eq_false_2. }
  assert (∀ p, vendorFilter (Some name) p = true ↔ get p "Vendor" = JStr name)
    as Hfilter.
  { intros p. unfold vendorFilter, strict_eq. simpl.
    apply String.eqb_neq in Hname as ->. simpl. rewrite negb_involutive.
    apply bool_decide_eq_true. }
  assert (∀ f, get (properties f) "Vendor" = JStr name → vendorKey f = name) as Hkey.
  { intros f Hv. unfold vendorKey, js_or. rewrite Hv. simpl.
    by apply String.eqb_neq in Hname as ->. }
  eexists. split_and!.
  - apply updateMapFilters_plain; [done|]. exact Hall.
  - intros f. rewrite list_elem_of_filter, Hon, Hfilter. unfold clickChip, rssiVal.
    simpl. tauto.
  - unfold vendorCount. apply filter_length_le.
    intros f _ [_ Hv]. cbv beta in Hv. rewrite Hon in Hv. by apply Hkey, Hfilter.
  - intros Hfs. unfold vendorCount. apply filter_length_eq.
    intros f Hf. destruct (Hfs f Hf) as [Hsignal Hvendor]. cbv beta.
    rewrite Hon, Hfilter. split; [intros [_ Hv]; by apply Hkey|].
    intros Hk. split; [exact Hsignal|].
    unfold vendorKey, js_or in Hk. destruct Hvendor as [Hfalsy|[s Hs]].
    + rewrite Hfalsy in Hk. simpl in Hk. congruence.
    + rewrite Hs in Hk. simpl in Hk.
      destruct (String.eqb s ""); simpl in Hk; congruence.
  - change (activeVendorFilter (clickChip name (clickChip name c)))
      with (if bool_decide (activeVendorFilter (clickChip name c) = Some name)
            then None else Some name).
    by rewrite Hon, bool_decide_eq_true_2.
Qed.

End ChipFacts.

(** ** The map page: the buttons *)

Section ViewFacts.
Import View.

Lemma layoutOf_lookup (g l h og o s sg d : bool) (k : string) :
  layoutOf g l h og o s sg d !! k
  = if decide (k = "route-glow") then Some g
    else if decide (k = "route-line") then Some l
    else if decide (k = "heatmap-density") then Some h
    else if decide (k = "points-open-glow") then Some og
    else if decide (k = "points-open") then Some o
    else if decide (k = "points-security") then Some s
    else if decide (k = "points-signal") then Some sg
    else if decide (k = "points-default") then Some d
    else None.
Proof.
  unfold layoutOf. simpl.
  repeat match goal with
         | |- context [decide (k = ?s)] =>
             destruct (decide (k = s)) as [->|Hne];
             [by rewrite lookup_insert_eq
             | rewrite lookup_insert_ne by done; clear Hne]
         end.
  apply lookup_empty.
Qed.

Ltac layer_cases k :=
  unfold setLayoutProperty; apply map_eq; intros k;
  match goal with
  | |- alter _ ?id _ !! _ = _ =>
      destruct (decide (k = id)) as [->|Hne];
      [rewrite lookup_alter_eq, !layoutOf_lookup; vm_compute; reflexivity
      | rewrite lookup_alter_ne by done; rewrite !layoutOf_lookup;
        repeat (case_decide; [reflexivity || congruence|]); reflexivity]
  end.

Lemma set_route_glow (v g l h og o s sg d : bool) :
  setLayoutProperty "route-glow" v (layoutOf g l h og o s sg d)
  = layoutOf v l h og o s sg d.
Proof. layer_cases k. Qed.

Lemma set_route_line (v g l h og o s sg d : bool) :
  setLayoutProperty "route-line" v (layoutOf g l h og o s sg d)
  = layoutOf g v h og o s sg d.
Proof. layer_cases k. Qed.

Lemma set_heatmap_density (v g l h og o s sg d : bool) :
  setLayoutProperty "heatmap-density" v (layoutOf g l h og o s sg d)
  = layoutOf g l v og o s sg d.
Proof. layer_cases k. Qed.

Lemma set_points_open_glow (v g l h og o s sg d : bool) :
  setLayoutProperty "points-open-glow" v (layoutOf g l h og o s sg d)
  = layoutOf g l h v o s sg d.
Proof. layer_cases k. Qed.

Lemma set_points_open (v g l h og o s sg d : bool) :
  setLayoutProperty "points-open" v (layoutOf g l h og o s sg d)
  = layoutOf g l h og v s sg d.
Proof. layer_cases k. Qed.

Lemma set_points_security (v g l h og o s sg d : bool) :
  setLayoutProperty "points-security" v (layoutOf g l h og o s sg d)
  = layoutOf g l h og o v sg d.
Proof. layer_cases k. Qed.

Lemma set_points_signal (v g l h og o s sg d : bool) :
  setLayoutProperty "points-signal" v (layoutOf g l h og o s sg d)
  = layoutOf g l h og o s v d.
Proof. layer_cases k. Qed.

Lemma set_points_default (v g l h og o s sg d : bool) :
  setLayoutProperty "points-default" v (layoutOf g l h og o s sg d)
  = layoutOf g l h og o s sg v.
Proof. layer_cases k. Qed.

Ltac set_layers :=
  rewrite ?set_route_glow, ?set_route_line, ?set_heatmap_density,
    ?set_points_open_glow, ?set_points_open, ?set_points_security,
    ?set_points_signal, ?set_points_default.

Lemma addLayer_lookup (m : gmap string bool) (l : Layer) (k : string) :
  addLayer m l !! k
  = match m !! k with
    | Some v => Some v
    | None => if decide (k = id l) then Some (visible l) else None
    end.
Proof.
  unfold addLayer. destruct (decide (k = id l)) as [->|Hne].
  - destruct (m !! id l) as [v|] eqn:Hm; [by rewrite Hm|].
    by rewrite lookup_insert_eq.
  - destruct (m !! id l); [by destruct (m !! k)|].
    rewrite lookup_insert_ne by done. by destruct (m !! k).
Qed.

Lemma addLayers_empty :
  addLayers ∅ = layoutOf true true true false false false false true.
Proof.
  apply map_eq. intros k. rewrite layoutOf_lookup.
  unfold addLayers, initLayers. cbn [foldl].
  rewrite !addLayer_lookup, lookup_empty. cbn [id visible].
  repeat (case_decide; [reflexivity|]). reflexivity.
Qed.

Lemma setViewMode_layout (mode : string) (st : State)
    (g l h og o s sg d : bool) :
  layout st = layoutOf g l h og o s sg d →
  layout (setViewMode mode st)
  = layoutOf g l (String.eqb mode "density") og o
             (String.eqb mode "security") (String.eqb mode "signal")
             (String.eqb mode "density" || String.eqb mode "none").
Proof.
  intros Hl. unfold setViewMode. cbn [layout]. rewrite Hl. set_layers.
  destruct (String.eqb_spec mode "density") as [->|Hd]; [by set_layers|].
  destruct (String.eqb_spec mode "security") as [->|Hs]; [by set_layers|].
  destruct (String.eqb_spec mode "signal") as [->|Hg]; [by set_layers|].
  destruct (String.eqb_spec mode "none") as [->|Hn]; by set_layers.
Qed.

Lemma getItem_insert_eq (storage : gmap string string) (k v : string) :
  getItem (<[k := v]> storage) k = JStr v.
Proof. unfold getItem. by rewrite lookup_insert_eq. Qed.

Lemma getItem_insert_ne (storage : gmap string string) (k k' v : string) :
  k ≠ k' → getItem (<[k := v]> storage) k' = getItem storage k'.
Proof. intros Hne. unfold getItem. by rewrite lookup_insert_ne. Qed.

Lemma hideRoute_consistent (st : State) (g l : bool) :
  layout st = layoutOf g l (String.eqb (currentMode st) "density")
                (openHighlight st) (openHighlight st)
                (String.eqb (currentMode st) "security")
                (String.eqb (currentMode st) "signal")
                (String.eqb (currentMode st) "density"
                 || String.eqb (currentMode st) "none") →
  g = true → l = true →
  layout (hideRoute st)
  = expectedLayout (currentMode st) (openHighlight st) (routeVisible st).
Proof.
  intros Hl -> ->. unfold hideRoute, expectedLayout.
  destruct (routeVisible st); [done|]. cbn [layout withLayout]. rewrite Hl.
  by set_layers.
Qed.

Lemma start_mapLoaded_consistent (markup : bool) (storage : gmap string string) :
  consistent (mapLoaded (start markup storage)).
Proof.
  unfold mapLoaded.
  set (st0 := withLayout (start markup storage) (addLayers (layout (start markup storage)))).
  assert (layout st0 = layoutOf true true true false false false false true) as Hl0
    by apply addLayers_empty.
  pose proof (setViewMode_layout (currentMode st0) st0 _ _ _ _ _ _ _ _ Hl0) as Hl1.
  set (st1 := setViewMode (currentMode st0) st0) in *.
  assert (currentMode st1 = currentMode st0) as Hm by done.
  assert (openHighlight st1 = false) as Ho by done.
  assert (hideRoute st1 = st1 ∨
          hideRoute st1 = withLayout st1 (layout (hideRoute st1))) as Hshape.
  { unfold hideRoute. destruct (routeVisible st1); [by left | by right]. }
  assert (layout (hideRoute st1)
          = expectedLayout (currentMode st1) (openHighlight st1) (routeVisible st1))
    as Hl2.
  { apply (hideRoute_consistent st1 true true); [|done|done].
    by rewrite Hm, Ho. }
  assert (∀ st', (st' = st1 ∨ st' = withLayout st1 (layout st')) →
            layout st' = expectedLayout (currentMode st1) (openHighlight st1)
                           (routeVisible st1) →
            consistent st') as Hgoal; [|by apply Hgoal].
  intros st' Hst' Hl'.
  assert (currentStyle st' = currentStyle st1 ∧ currentMode st' = currentMode st1 ∧
          openHighlight st' = openHighlight st1 ∧ routeVisible st' = routeVisible st1 ∧
          localStorage st' = localStorage st1 ∧ mapStyle st' = mapStyle st1)
    as (Hs & Hmo & Hop & Hr & Hls & Hms).
  { destruct Hst' as [->| ->]; by split_and!. }
  unfold consistent. rewrite Hs, Hmo, Hop, Hr, Hls, Hms. split_and!.
  - exact Hl'.
  - unfold st1, setViewMode. cbn [localStorage currentStyle].
    by rewrite getItem_insert_ne.
  - unfold st1, setViewMode. cbn [localStorage currentMode].
    by rewrite getItem_insert_eq.
  - unfold st1, setViewMode. cbn [localStorage routeVisible].
    by rewrite getItem_insert_ne.
  - unfold st1, setViewMode, st0, withLayout, start. cbn [mapStyle currentStyle]. done.
Qed.

Lemma setViewMode_consistent (mode : string) (st : State) :
  consistent st → consistent (setViewMode mode st).
Proof.
  intros (Hl & Hs & Hm & Hr & Hms). unfold consistent. split_and!.
  - by rewrite (setViewMode_layout mode st _ _ _ _ _ _ _ _ Hl).
  - unfold setViewMode. cbn [localStorage currentStyle].
    by rewrite getItem_insert_ne.
  - unfold setViewMode. cbn [localStorage currentMode]. by rewrite getItem_insert_eq.
  - unfold setViewMode. cbn [localStorage routeVisible]. by rewrite getItem_insert_ne.
  - exact Hms.
Qed.

Lemma toggleOpenNetworks_consistent (st : State) :
  consistent st → consistent (toggleOpenNetworks st).
Proof.
  intros (Hl & Hs & Hm & Hr & Hms). unfold consistent. split_and!; try done.
  unfold toggleOpenNetworks. cbn [layout currentMode openHighlight routeVisible].
  rewrite Hl. unfold expectedLayout. by set_layers.
Qed.

Lemma toggleRoute_consistent (st : State) :
  consistent st → consistent (toggleRoute st).
Proof.
  intros (Hl & Hs & Hm & Hr & Hms). unfold consistent. split_and!.
  - unfold toggleRoute. cbn [layout currentMode openHighlight routeVisible].
    rewrite Hl. unfold expectedLayout. by set_layers.
  - unfold toggleRoute. cbn [localStorage currentStyle]. by rewrite getItem_insert_ne.
  - unfold toggleRoute. cbn [localStorage currentMode]. by rewrite getItem_insert_ne.
  - unfold toggleRoute. cbn [localStorage routeVisible]. rewrite getItem_insert_eq.
    by destruct (routeVisible st).
  - exact Hms.
Qed.

Lemma switchTheme_consistent (st : State) :
  consistent st → consistent (switchTheme st).
Proof.
  intros (Hl & Hs & Hm & Hr & Hms). unfold switchTheme.
  set (dark := String.eqb (currentStyle st) "dark").
  set (style := if dark then "light" else "dark").
  set (st1 := mkState style (currentMode st) (openHighlight st) (routeVisible st)
                (<["netstalker-theme" := style]> (localStorage st))
                dark (if dark then lightStyle else darkStyle) (addLayers ∅)).
  pose proof (setViewMode_layout (currentMode st1) st1 _ _ _ _ _ _ _ _ addLayers_empty)
    as Hl1.
  set (st2 := setViewMode (currentMode st1) st1) in *.
  set (st3 := if openHighlight st2
              then withLayout st2 (setLayoutProperty "points-open-glow" true
                     (setLayoutProperty "points-open" true (layout st2)))
              else st2).
  assert (layout st3
          = layoutOf true true (String.eqb (currentMode st) "density")
              (openHighlight st) (openHighlight st)
              (String.eqb (currentMode st) "security")
              (String.eqb (currentMode st) "signal")
              (String.eqb (currentMode st) "density"
               || String.eqb (currentMode st) "none")) as Hl3.
  { unfold st3. change (openHighlight st2) with (openHighlight st).
    destruct (openHighlight st); [|exact Hl1].
    cbn [layout withLayout]. rewrite Hl1. by set_layers. }
  assert (currentStyle st3 = style ∧ currentMode st3 = currentMode st ∧
          openHighlight st3 = openHighlight st ∧ routeVisible st3 = routeVisible st ∧
          localStorage st3 = localStorage st2 ∧
          mapStyle st3 = (if dark then lightStyle else darkStyle))
    as (Hs3 & Hm3 & Ho3 & Hr3 & Hls3 & Hms3).
  { unfold st3. change (openHighlight st2) with (openHighlight st).
    by destruct (openHighlight st). }
  assert (layout (hideRoute st3)
          = expectedLayout (currentMode st3) (openHighlight st3) (routeVisible st3))
    as Hl4.
  { apply (hideRoute_consistent st3 true true); [|done|done]. by rewrite Hm3, Ho3. }
  assert (currentStyle (hideRoute st3) = currentStyle st3 ∧
          currentMode (hideRoute st3) = currentMode st3 ∧
          openHighlight (hideRoute st3) = openHighlight st3 ∧
          routeVisible (hideRoute st3) = routeVisible st3 ∧
          localStorage (hideRoute st3) = localStorage st3 ∧
          mapStyle (hideRoute st3) = mapStyle st3) as (Hs4 & Hm4 & Ho4 & Hr4 & Hls4 & Hms4).
  { unfold hideRoute. destruct (routeVisible st3) eqn:Hvis; [done|].
    by split_and!. }
  unfold consistent. rewrite Hs4, Hm4, Ho4, Hr4, Hls4, Hms4. split_and!.
  - exact Hl4.
  - rewrite Hls3, Hs3. unfold st2, setViewMode, st1. cbn [localStorage].
    rewrite getItem_insert_ne by done. rewrite getItem_insert_eq.
    unfold style. by destruct dark.
  - rewrite Hls3, Hm3. unfold st2, setViewMode, st1. cbn [localStorage currentMode].
    by rewrite getItem_insert_eq.
  - rewrite Hls3, Hr3. unfold st2, setViewMode, st1. cbn [localStorage currentMode].
    by rewrite !getItem_insert_ne.
  - rewrite Hms3, Hs3. unfold style. by destruct dark.
Qed.

Lemma click_consistent (st : State) (a : Action) :
  consistent st → consistent (click st a).
Proof.
  destruct a; simpl.
  - apply setViewMode_consistent.
  - apply toggleOpenNetworks_consistent.
  - apply toggleRoute_consistent.
  - apply switchTheme_consistent.
Qed.

Lemma visit_consistent (markup : bool) (storage : gmap string string)
    (clicks : list Action) :
  consistent (visit markup storage clicks).
Proof.
  unfold visit. induction clicks as [|a clicks IH] using rev_ind.
  - apply start_mapLoaded_consistent.
  - rewrite foldl_snoc. by apply click_consistent.
Qed.

Lemma hideRoute_flags (st : State) :
  currentStyle (hideRoute st) = currentStyle st ∧
  currentMode (hideRoute st) = currentMode st ∧
  openHighlight (hideRoute st) = openHighlight st ∧
  routeVisible (hideRoute st) = routeVisible st ∧
  localStorage (hideRoute st) = localStorage st ∧
  lightTheme (hideRoute st) = lightTheme st ∧
  mapStyle (hideRoute st) = mapStyle st.
Proof. unfold hideRoute. destruct (routeVisible st) eqn:Hvis; by split_and!. Qed.

Lemma mapLoaded_flags (st : State) :
  currentStyle (mapLoaded st) = currentStyle st ∧
  currentMode (mapLoaded st) = currentMode st ∧
  openHighlight (mapLoaded st) = openHighlight st ∧
  routeVisible (mapLoaded st) = routeVisible st ∧
  lightTheme (mapLoaded st) = lightTheme st ∧
  mapStyle (mapLoaded st) = mapStyle st.
Proof.
  unfold mapLoaded.
  destruct (hideRoute_flags
              (setViewMode (currentMode st) (withLayout st (addLayers (layout st)))))
    as (-> & -> & -> & -> & _ & -> & ->).
  by split_and!.
Qed.

Lemma switchTheme_flags (st : State) :
  currentStyle (switchTheme st)
  = (if String.eqb (currentStyle st) "dark" then "light" else "dark") ∧
  currentMode (switchTheme st) = currentMode st ∧
  openHighlight (switchTheme st) = openHighlight st ∧
  routeVisible (switchTheme st) = routeVisible st ∧
  lightTheme (switchTheme st) = String.eqb (currentStyle st) "dark".
Proof.
  unfold switchTheme.
  match goal with
  | |- context [hideRoute ?s] =>
      destruct (hideRoute_flags s) as (-> & -> & -> & -> & _ & -> & _)
  end.
  cbn [setViewMode openHighlight].
  destruct (openHighlight st) eqn:Ho; by split_and!.
Qed.

(** X13: the layers shown follow the buttons.  After the map has
    loaded and after every sequence of clicks on the view mode, open
    network, route and theme buttons, the visibility of the eight
    layers is the one the view mode, the open-network flag and the
    route flag call for: both route layers follow the route flag, both
    open-network layers the highlight flag, the heatmap is shown in
    density mode, the security points in security mode, the signal
    points in signal mode, the plain points in density and none mode,
    and a mode of another name shows none of these four.  A view mode
    click leaves the route and open-network layers as they are, a
    theme change shows the same layers as before, and two clicks on
    the highlight or on the route button undo each other. *)
Theorem layers_shown_follow_the_buttons
    (markup : bool) (storage : gmap string string) (clicks : list Action) :
  let st := visit markup storage clicks in
  layout st = expectedLayout (currentMode st) (openHighlight st) (routeVisible st) ∧
  (∀ mode, layout (setViewMode mode st)
           = expectedLayout mode (openHighlight st) (routeVisible st)) ∧
  layout (toggleOpenNetworks st)
  = expectedLayout (currentMode st) (negb (openHighlight st)) (routeVisible st) ∧
  layout (toggleRoute st)
  = expectedLayout (currentMode st) (openHighlight st) (negb (routeVisible st)) ∧
  layout (switchTheme st) = layout st ∧
  layout (toggleOpenNetworks (toggleOpenNetworks st)) = layout st ∧
  layout (toggleRoute (toggleRoute st)) = layout st.
Proof.
  intros st. pose proof (visit_consistent markup storage clicks) as Hst.
  fold st in Hst.
  pose proof Hst as (Hl & _).
  split_and!.
  - exact Hl.
  - intros mode. by destruct (setViewMode_consistent mode st Hst) as [-> _].
  - by destruct (toggleOpenNetworks_consistent st Hst) as [-> _].
  - by destruct (toggleRoute_consistent st Hst) as [-> _].
  - destruct (switchTheme_consistent st Hst) as [-> _].
    destruct (switchTheme_flags st) as (_ & -> & -> & -> & _). by rewrite Hl.
  - destruct (toggleOpenNetworks_consistent _ (toggleOpenNetworks_consistent st Hst))
      as [-> _].
    cbn [toggleOpenNetworks currentMode openHighlight routeVisible].
    by rewrite negb_involutive, Hl.
  - destruct (toggleRoute_consistent _ (toggleRoute_consistent st Hst)) as [-> _].
    cbn [toggleRoute currentMode openHighlight routeVisible].
    by rewrite negb_involutive, Hl.
Qed.

(** X14: what a reload restores.  Loading the page again on the
    [localStorage] a visit leaves restores the theme with its map
    style, the route flag and the view mode (the empty mode comes back
    as density), but not the open-network highlight, which starts off:
    the layers shown after the reload are those of the restored mode
    and route flag with the highlight off. *)
Theorem reload_restores_theme_mode_and_route
    (markup markup' : bool) (storage : gmap string string) (clicks : list Action) :
  let st := visit markup storage clicks in
  let st' := visit markup' (localStorage st) [] in
  currentStyle st' = currentStyle st ∧
  mapStyle st' = mapStyle st ∧
  routeVisible st' = routeVisible st ∧
  currentMode st'
  = (if String.eqb (currentMode st) "" then "density" else currentMode st) ∧
  openHighlight st' = false ∧
  layout st'
  = expectedLayout (if String.eqb (currentMode st) "" then "density"
                    else currentMode st) false (routeVisible st).
Proof.
  intros st st'.
  destruct (visit_consistent markup storage clicks) as (Hl & Hs & Hm & Hr & Hms).
  fold st in Hl, Hs, Hm, Hr, Hms.
  destruct (visit_consistent markup' (localStorage st) []) as (Hl' & _ & _ & _ & Hms').
  fold st' in Hl', Hms'.
  unfold st', visit in *. cbn [foldl] in *.
  destruct (mapLoaded_flags (start markup' (localStorage st)))
    as (Hs1 & Hm1 & Ho1 & Hr1 & _ & _).
  rewrite Hs1, Hm1, Ho1, Hr1 in *. unfold start in *.
  cbn [currentStyle currentMode openHighlight routeVisible] in *.
  rewrite Hs, Hm, Hr in *.
  assert (ToString (js_or (JStr (currentMode st)) (JStr "density"))
          = if String.eqb (currentMode st) "" then "density" else currentMode st)
    as Hmode.
  { unfold js_or. simpl. by destruct (String.eqb (currentMode st) ""). }
  rewrite Hmode in *.
  split_and!; try done.
  by rewrite Hms', Hms.
Qed.

Lemma visit_theme (markup : bool) (storage : gmap string string)
    (clicks : list Action) :
  let st := visit markup storage clicks in
  (markup = false ∨ ToggleTheme ∈ clicks →
   lightTheme st = String.eqb (currentStyle st) "light") ∧
  (ToggleTheme ∈ clicks → currentStyle st = "dark" ∨ currentStyle st = "light").
Proof.
  unfold visit. induction clicks as [|a clicks [IH1 IH2]] using rev_ind.
  - cbn [foldl]. split.
    + intros [->|Hin]; [|by apply elem_of_nil in Hin].
      destruct (mapLoaded_flags (start false storage)) as (-> & _ & _ & _ & -> & _).
      unfold start. cbn [lightTheme currentStyle].
      by destruct (String.eqb _ "light").
    + by intros ?%elem_of_nil.
  - rewrite foldl_snoc.
    set (st := foldl click (mapLoaded (start markup storage)) clicks) in *.
    destruct a.
    + split; cbn [click setViewMode lightTheme currentStyle].
      * intros [?|[?|[=]%list_elem_of_singleton]%elem_of_app]; apply IH1; auto.
      * intros [?|[=]%list_elem_of_singleton]%elem_of_app. by apply IH2.
    + split; cbn [click toggleOpenNetworks lightTheme currentStyle].
      * intros [?|[?|[=]%list_elem_of_singleton]%elem_of_app]; apply IH1; auto.
      * intros [?|[=]%list_elem_of_singleton]%elem_of_app. by apply IH2.
    + split; cbn [click toggleRoute lightTheme currentStyle].
      * intros [?|[?|[=]%list_elem_of_singleton]%elem_of_app]; apply IH1; auto.
      * intros [?|[=]%list_elem_of_singleton]%elem_of_app. by apply IH2.
    + cbn [click]. destruct (switchTheme_flags st) as (-> & _ & _ & _ & ->).
      split; intros _; destruct (String.eqb (currentStyle st) "dark"); auto.
Qed.

(** X15: one theme for both pages.  Throughout a visit of the map
    page the style of the map is the light one exactly when the theme
    is ["light"], and the statistics page, reading the stored theme,
    is light exactly then; so is the class of [body] on the map page
    once the theme button was clicked or when the page is served
    without the class.  After a click the theme is ["dark"] or
    ["light"], from these two a second click returns to the first, and
    from a stored theme of another name the first click leads to
    ["dark"]. *)
Theorem theme_is_kept_for_both_pages
    (markup : bool) (storage : gmap string string) (clicks : list Action) :
  let st := visit markup storage clicks in
  mapStyle st
  = (if String.eqb (currentStyle st) "light" then lightStyle else darkStyle) ∧
  Dashboard.applyTheme (localStorage st) = String.eqb (currentStyle st) "light" ∧
  (markup = false ∨ ToggleTheme ∈ clicks →
   lightTheme st = String.eqb (currentStyle st) "light") ∧
  (ToggleTheme ∈ clicks → currentStyle st = "dark" ∨ currentStyle st = "light") ∧
  (currentStyle st = "dark" ∨ currentStyle st = "light" →
   currentStyle (switchTheme (switchTheme st)) = currentStyle st) ∧
  (String.eqb (currentStyle st) "dark" = false →
   currentStyle (switchTheme st) = "dark" ∧ mapStyle (switchTheme st) = darkStyle).
Proof.
  intros st.
  destruct (visit_consistent markup storage clicks) as (_ & Hs & _ & _ & Hms).
  fold st in Hs, Hms.
  destruct (visit_theme markup storage clicks) as [Hlight Hstyle].
  fold st in Hlight, Hstyle.
  split_and!; try done.
  - rewrite <- Hs. unfold Dashboard.applyTheme, getItem.
    destruct (localStorage st !! "netstalker-theme") as [v|]; simpl.
    + destruct (ToString (js_or (JStr v) (JStr "dark")) =? "light")%string eqn:He.
      * apply String.eqb_eq in He. by rewrite bool_decide_eq_true_2.
      * apply String.eqb_neq in He. by rewrite bool_decide_eq_false_2.
    + done.
  - intros Hdl. destruct (switchTheme_flags (switchTheme st)) as (-> & _).
    destruct (switchTheme_flags st) as (-> & _).
    by destruct Hdl as [-> | ->].
  - intros Hnd.
    destruct (switchTheme_consistent st (visit_consistent markup storage clicks))
      as (_ & _ & _ & _ & Hms').
    fold st in Hms'. rewrite Hms'.
    destruct (switchTheme_flags st) as (-> & _). by rewrite Hnd.
Qed.

End ViewFacts.

(** ** The map page: the dropdown, the popup and the highlight *)

Section DropdownOrder.
Import Obj.
Variable localeCompare : string → string → Z.
Local Open Scope Z_scope.




End DropdownOrder.

Section PopupFacts.
Variable StringToNumber : string → JsNum.

(** X17: where the popup and the statistics page agree on the
    security class.  For an [AuthMode] written in upper case, other
    than ["[]"], that does not name OPEN together with WPA2 or WPA3,
    the colour of the popup is that of the class the statistics page
    counts the feature in.  They differ on ["[]"] (grey in the popup,
    open in the statistics), on a label naming OPEN and WPA3 (red in
    the popup, WPA3 in the statistics), and on a feature without
    [AuthMode], on which the popup raises while the statistics count
    it as open. *)
Theorem popup_and_statistics_agree_on_upper_case_labels :
  (∀ (c : Counters) (f : Feature) (auth : string),
     get (properties f) "AuthMode" = JStr auth →
     upper auth = auth → auth ≠ "[]" →
     (includes auth "OPEN" = true →
      includes auth "WPA3" = false ∧ includes auth "WPA2" = false) →
     let counted := security <$> processFeature StringToNumber c f in
     let colour := secColor (properties f) in
     (colour = Some "#10b981" ∧ counted = Some (incr_wpa3 (security c))) ∨
     (colour = Some "#f59e0b" ∧ counted = Some (incr_wpa2 (security c))) ∨
     (colour = Some "#ef4444" ∧ counted = Some (incr_open (security c))) ∨
     (colour = Some "#94a3b8" ∧ counted = Some (incr_legacy (security c)))) ∧
  (∀ (c : Counters) (f : Feature),
     get (properties f) "AuthMode" = JStr "[]" →
     secColor (properties f) = Some "#94a3b8" ∧
     security <$> processFeature StringToNumber c f = Some (incr_open (security c))) ∧
  (∀ (c : Counters) (f : Feature) (auth : string),
     get (properties f) "AuthMode" = JStr auth →
     includes auth "OPEN" = true → includes (upper auth) "WPA3" = true →
     secColor (properties f) = Some "#ef4444" ∧
     security <$> processFeature StringToNumber c f = Some (incr_wpa3 (security c))) ∧
  (∀ (c : Counters) (f : Feature),
     get (properties f) "AuthMode" = JUndefined →
     secColor (properties f) = None ∧
     security <$> processFeature StringToNumber c f = Some (incr_open (security c))).
Proof.
  split_and!.
  - intros c f auth Hauth Hupper Hne Hopen counted colour.
    unfold counted, colour, processFeature, secColor.
    rewrite (authOf_string _ _ Hauth), Hauth, Hupper. simpl.
    unfold classifySecurity.
    destruct (includes auth "OPEN") eqn:Ho.
    + destruct (Hopen eq_refl) as [-> ->]. simpl. right. right. by left.
    + destruct (String.eqb auth "") eqn:He; simpl.
      * apply String.eqb_eq in He. subst auth. simpl. right. right. by left.
      * destruct (includes auth "WPA3"); [by left|].
        destruct (includes auth "WPA2"); [right; by left|].
        apply String.eqb_neq in Hne as ->. simpl. right. right. by right.
  - intros c f Hauth. unfold processFeature, secColor.
    rewrite (authOf_string _ _ Hauth), Hauth. done.
  - intros c f auth Hauth Ho H3. unfold processFeature, secColor.
    rewrite (authOf_string _ _ Hauth), Hauth. simpl. rewrite Ho. simpl.
    unfold classifySecurity. by rewrite H3.
  - intros c f Hauth. unfold processFeature, secColor, authOf, js_or.
    rewrite Hauth. done.
Qed.

(** X18: the open-network highlight marks the exact labels only.
    Both open-network layers draw a feature exactly when its
    [AuthMode] is ["OPEN"] or the empty string, every other layer
    draws every feature of its source; whatever the highlight marks
    the statistics page counts as open, but not the other way round:
    a feature without [AuthMode], with ["[]"] or with ["open"] is
    counted as open and not marked. *)
Theorem open_highlight_marks_exact_labels :
  (∀ (l : Layer) (f : Feature),
     l ∈ initLayers → id l = "points-open" ∨ id l = "points-open-glow" →
     passesFilter l f = true ↔
     get (properties f) "AuthMode" = JStr "OPEN" ∨
     get (properties f) "AuthMode" = JStr "") ∧
  (∀ (l : Layer) (f : Feature),
     l ∈ initLayers → id l ≠ "points-open" → id l ≠ "points-open-glow" →
     passesFilter l f = true) ∧
  (∀ (l : Layer) (f : Feature) (c : Counters),
     l ∈ initLayers → id l = "points-open" ∨ id l = "points-open-glow" →
     passesFilter l f = true →
     security <$> processFeature StringToNumber c f = Some (incr_open (security c))) ∧
  (∀ (l : Layer) (f : Feature) (c : Counters),
     l ∈ initLayers → id l = "points-open" ∨ id l = "points-open-glow" →
     get (properties f) "AuthMode" = JUndefined ∨
     get (properties f) "AuthMode" = JStr "[]" ∨
     get (properties f) "AuthMode" = JStr "open" →
     passesFilter l f = false ∧
     security <$> processFeature StringToNumber c f = Some (incr_open (security c))).
Proof.
  assert (∀ (l : Layer) (f : Feature),
            l ∈ initLayers → id l = "points-open" ∨ id l = "points-open-glow" →
            passesFilter l f = true ↔
            get (properties f) "AuthMode" = JStr "OPEN" ∨
            get (properties f) "AuthMode" = JStr "") as Hexact.
  { intros l f Hl Hid. unfold initLayers in Hl.
    each_member Hl ltac:(try (by destruct Hid as [[=]|[=]])).
    all: unfold passesFilter; simpl.
    all: unfold getProperty, get.
    all: destruct (properties f !! "AuthMode") as [[| |b|n|s]|]; simpl;
      try (split; [done | by intros [[=]|[=]]]).
    all: destruct (bool_decide_reflect (JStr s = JStr "OPEN")) as [H1|H1],
           (bool_decide_reflect (JStr s = JStr "")) as [H2|H2]; simpl.
    all: try (split; [intros _; by auto | by intros _]).
    all: split; [done | by intros [?|?]]. }
  split_and!.
  - exact Hexact.
  - intros l f Hl Hn1 Hn2. unfold initLayers in Hl.
    each_member Hl ltac:(try done).
  - intros l f c Hl Hid Hpass. apply (Hexact l f Hl Hid) in Hpass.
    unfold processFeature.
    destruct Hpass as [Hauth|Hauth]; rewrite (authOf_string _ _ Hauth); done.
  - intros l f c Hl Hid Hauth. split.
    + destruct (passesFilter l f) eqn:Hpass; [|done].
      apply (Hexact l f Hl Hid) in Hpass.
      destruct Hauth as [Ha|[Ha|Ha]]; rewrite Ha in Hpass;
        by destruct Hpass as [[=]|[=]].
    + unfold processFeature. destruct Hauth as [Ha|[Ha|Ha]].
      * unfold authOf, js_or. rewrite Ha. done.
      * rewrite (authOf_string _ _ Ha). done.
      * rewrite (authOf_string _ _ Ha). done.
Qed.

End PopupFacts.

(** ** The survey, evaluated *)

Section SurveyRun.
Import Samples Obj Dashboard Chips.
Local Open Scope Z_scope.

Lemma survey_keys :
  Forall (λ f, ownKey (ssidKey f) ∧ ownKey (vendorKey f)) Survey.allFeatures.
Proof.
  unfold Survey.allFeatures.
  unfold ownKey.
  repeat (apply Forall_cons_2; [split; compute_done|]).
  apply Forall_nil_2.
Qed.

Lemma survey_vendor_keys :
  Forall (λ f, ownKey (vendorKey f)) Survey.allFeatures.
Proof. eapply Forall_impl; [apply survey_keys|]. by intros f [_ ?]. Qed.




Lemma signal_strength_buckets_witness :
  ∃ v : StatsView,
    updateStatsPage integerToNumber Survey.allFeatures = Rendered v ∧
    rssiRanges (counters v) = mkRssiRanges 1 1 1 1 1 ∧
    poor (rssiRanges (counters v))
    = length (filter (λ f, ge_number integerToNumber (rssiOf (properties f)) (Num (-90))
                           = false) Survey.allFeatures).
Proof.
  eexists. split; [reflexivity|]. split; [reflexivity|].
  destruct (signal_strength_buckets integerToNumber Survey.allFeatures _ eq_refl)
    as (_ & _ & _ & _ & Hpoor & _).
  exact Hpoor.
Defined.




Lemma raising_the_signal_threshold_witness :
  ∃ out1 out2,
    updateMapFilters integerToNumber
      (mkControls (Some "") (Some "all") (Some "-90") None) Survey.allFeatures
    = Some out1 ∧
    updateMapFilters integerToNumber
      (mkControls (Some "") (Some "all") (Some "-60") None) Survey.allFeatures
    = Some out2 ∧
    out2 `sublist_of` out1 ∧ out1 `sublist_of` Survey.allFeatures.
Proof.
  eexists.
  destruct (raising_the_signal_threshold_only_removes integerToNumber Survey.fresh
              "-90" "-60" (-90) (-60) Survey.allFeatures _
              eq_refl eq_refl ltac:(lia) eq_refl)
    as (out2 & Hrun & Hsub2 & Hsub1 & _).
  exists out2. split; [reflexivity|]. split; [exact Hrun|]. split; [exact Hsub2 | exact Hsub1].
Defined.

Lemma vendor_chips_witness :
  Forall (λ f, ownKey (vendorKey f)) Survey.allFeatures ∧
  NoDup (buildVendorChips Survey.allFeatures).*1 ∧
  StronglySorted (λ a b, b ≤ a)%nat (buildVendorChips Survey.allFeatures).*2 ∧
  ∀ name n, (name, n) ∈ buildVendorChips Survey.allFeatures →
    (name ≠ "Randomized" ∧ name ≠ "Unknown") ∧ name ≠ "" ∧
    n = vendorCount name Survey.allFeatures ∧ (0 < n)%nat.
Proof.
  split; [exact survey_vendor_keys|].
  destruct (vendor_chips_are_the_five_largest_named_vendors Survey.allFeatures
              survey_vendor_keys) as (_ & Hnd & Hchips & Hsorted & _).
  split; [exact Hnd|]. split; [exact Hsorted | exact Hchips].
Defined.

Lemma clicking_a_chip_witness :
  Forall (λ f, ownKey (vendorKey f)) Survey.allFeatures ∧
  ("Cisco", 2%nat) ∈ buildVendorChips Survey.allFeatures ∧
  ∃ out,
    updateMapFilters integerToNumber (clickChip "Cisco" Survey.fresh) Survey.allFeatures
    = Some out ∧
    (length out ≤ 2)%nat ∧
    activeVendorFilter (clickChip "Cisco" (clickChip "Cisco" Survey.fresh)) = None.
Proof.
  assert (("Cisco", 2%nat) ∈ buildVendorChips Survey.allFeatures) as Hchip.
  { vm_compute. left. }
  split; [exact survey_vendor_keys|]. split; [exact Hchip|].
  destruct (clicking_a_chip_shows_its_vendor integerToNumber Survey.allFeatures
              "Cisco" 2%nat Survey.fresh survey_vendor_keys Hchip eq_refl eq_refl
              ltac:(done))
    as (out & Hrun & _ & Hle & _ & Hoff).
  exists out. split; [exact Hrun|]. split; [exact Hle | exact Hoff].
Defined.


(** The vendor chart, the chips and the table of names of the survey:
    the features without vendor are charted as ["Unknown"] and have no
    chip; vendors of equal count keep the order in which they were
    met. *)
Example survey_vendors :
  sortedVendors Survey.allFeatures
  = [("Cisco", 2%nat); ("TP-Link", 1%nat); ("Unknown", 1%nat); ("Randomized", 1%nat)].
Proof. vm_compute. reflexivity. Qed.

Example survey_chips :
  buildVendorChips Survey.allFeatures = [("Cisco", 2%nat); ("TP-Link", 1%nat)].
Proof. vm_compute. reflexivity. Qed.

Example survey_table :
  ssidTable Survey.allFeatures
  = Some [mkRow 1 (Some "Office") "Cisco" 2; mkRow 2 (Some "Guest") "TP-Link" 1;
          mkRow 3 None "Unknown" 1; mkRow 4 (Some "Phone") "Randomized" 1].
Proof. vm_compute. reflexivity. Qed.

(** A visit of the map page with nothing stored: security mode, the
    highlight on, the route off, then the light theme. *)
Example survey_visit :
  let st := View.visit false ∅
              [View.SetViewMode "security"; View.ToggleOpenNetworks;
               View.ToggleRoute; View.ToggleTheme] in
  (View.currentStyle st, View.currentMode st, View.openHighlight st,
   View.routeVisible st, View.lightTheme st)
  = ("light", "security", true, false, true) ∧
  View.layout st !! "points-security" = Some true ∧
  View.layout st !! "heatmap-density" = Some false ∧
  View.layout st !! "points-open" = Some true ∧
  View.layout st !! "route-line" = Some false ∧
  View.localStorage st !! "netstalker-route" = Some "false" ∧
  applyTheme (View.localStorage st) = true.
Proof. vm_compute. done. Qed.

(** The popup and the statistics page on the first access point of the
    survey, and the highlight on the open one. *)
Example survey_popup :
  secColor (properties Survey.office1) = Some "#f59e0b" ∧
  security <$> processFeature integerToNumber initCounters Survey.office1
  = Some (incr_wpa2 (security initCounters)) ∧
  passesFilter (mkLayer "points-open" "wardrive" false (Some openFilter) None)
               Survey.guest = true ∧
  passesFilter (mkLayer "points-open" "wardrive" false (Some openFilter) None)
               Survey.office1 = false.
Proof. vm_compute. done. Qed.

(** The map page on the survey: with the slider at -100 dBm a click on
    the chip of the first vendor leaves its two access points. *)
Example survey_click :
  updateMapFilters integerToNumber (clickChip "Cisco" Survey.fresh) Survey.allFeatures
  = Some [Survey.office1; Survey.office2].
Proof. vm_compute. reflexivity. Qed.

End SurveyRun.
